(** * agentpriv: permission gates around agent tools

    A shallow embedding of [agentpriv/core.py]: the policy resolver
    [_resolve_policy], the call interceptor [guard] with its two wrapper
    variants, and the batch helper [guard_all], together with the parts of
    the Python runtime they rely on (string [repr], [fnmatch], exceptions,
    calls with side effects). *)

From Stdlib Require Import String Ascii List Bool Arith NArith ZArith Lia.
From Stdlib Require Import DecimalString Permutation.
Import ListNotations.
Local Open Scope string_scope.
Local Open Scope list_scope.

(** ** Python strings

    A Python [str] is modelled by a Rocq [string]; its characters are the
    code points below 256. *)

Module PyStr.

Definition chars (s : string) : list ascii := list_ascii_of_string s.

Definition of_chars (l : list ascii) : string := string_of_list_ascii l.

(** [s.replace(c, "")] for a one-character [c]. *)
Fixpoint remove_char (c : ascii) (s : string) : string :=
  match s with
  | EmptyString => EmptyString
  | String a s' =>
      if Ascii.eqb a c then remove_char c s' else String a (remove_char c s')
  end.

(** [c in s] for a one-character [c]. *)
Fixpoint contains_char (c : ascii) (s : string) : bool :=
  match s with
  | EmptyString => false
  | String a s' => Ascii.eqb a c || contains_char c s'
  end.

(** [x in t] for a tuple [t] of strings. *)
Definition in_tuple (x : string) (t : list string) : bool :=
  existsb (String.eqb x) t.

Definition hex_digit (n : N) : ascii :=
  nth (N.to_nat n) (chars "0123456789abcdef") "0"%char.

(** CPython's [Py_UNICODE_ISPRINTABLE] on the code points below 256. *)
Definition isprintable (c : ascii) : bool :=
  let n := N_of_ascii c in
  ((32 <=? n) && (n <? 127) || (161 <=? n) && negb (n =? 173))%N.

Definition quote1 : ascii := "039"%char.
Definition quote2 : ascii := "034"%char.
Definition backslash : ascii := "092"%char.

Definition repr_char (quote c : ascii) : string :=
  if Ascii.eqb c quote || Ascii.eqb c backslash
  then String backslash (String c "")
  else if Ascii.eqb c "009"%char then String backslash "t"
  else if Ascii.eqb c "010"%char then String backslash "n"
  else if Ascii.eqb c "013"%char then String backslash "r"
  else if isprintable c then String c ""
  else String backslash
         (String "x" (String (hex_digit (N_of_ascii c / 16))
                        (String (hex_digit (N_of_ascii c mod 16)) ""))).

Fixpoint repr_body (quote : ascii) (s : string) : string :=
  match s with
  | EmptyString => EmptyString
  | String a s' => repr_char quote a ++ repr_body quote s'
  end.

(** [repr(s)], which is what [{s!r}] puts into an f-string: single quotes,
    unless the text holds a single quote and no double quote. *)
Definition repr (s : string) : string :=
  let quote :=
    if contains_char quote1 s && negb (contains_char quote2 s)
    then quote2 else quote1 in
  String quote (repr_body quote s ++ String quote "").

End PyStr.

(** ** [fnmatch.fnmatch] on a POSIX system

    [os.path.normcase] is the identity there, so [fnmatch(name, pat)] is
    [re.compile(translate(pat)).match(name) is not None]. [translate] is
    modelled by the list of regular-expression pieces it appends to [res];
    the pieces are then matched against the whole name, which is what the
    surrounding [(?s:...)\Z] asks of [match]. *)

Module Fnmatch.

(** One position of the text between the brackets of a character set, as
    the regular-expression parser reads it: a (possibly escaped) literal
    character, or the hyphen that [translate] leaves unescaped to join
    two chunks into a range. *)
Inductive set_char : Type :=
| Chr (c : ascii)
| RangeOp.

Inductive piece : Type :=
| STAR                                     (* [*] *)
| AnyChar                                  (* ['.'] *)
| Never                                    (* ['(?!)'] *)
| Lit (c : ascii)                          (* [re.escape(c)], ['\\['] *)
| CharSet (negated : bool) (stuff : list set_char).

(** The scan for the closing bracket: [rest] is [pat[i:]], the result is
    [pat[i:j]] when a [j] with [pat[j] == ']'] is found. *)
Fixpoint until_rbracket (s : list ascii) : option (list ascii) :=
  match s with
  | [] => None
  | c :: s' =>
      if Ascii.eqb c "]" then Some []
      else option_map (cons c) (until_rbracket s')
  end.

Definition find_stuff (rest : list ascii) : option (list ascii) :=
  let '(p1, s1) :=
    match rest with
    | c :: s' => if Ascii.eqb c "!" then ([c], s') else ([], rest)
    | [] => ([], rest)
    end in
  let '(p2, s2) :=
    match s1 with
    | c :: s' => if Ascii.eqb c "]" then ([c], s') else ([], s1)
    | [] => ([], s1)
    end in
  option_map (fun body => p1 ++ p2 ++ body) (until_rbracket s2).

(** The [while True] loop cutting [stuff] at its range hyphens: [skip]
    is [k - i], the number of characters taken before a hyphen is looked
    for, and [acc] the current chunk, reversed. The last element is
    [pat[i:j]], which may be empty. *)
Fixpoint split_chunks (skip : nat) (acc : list ascii) (s : list ascii)
  : list (list ascii) :=
  match s with
  | [] => [rev acc]
  | c :: s' =>
      match skip with
      | S n => split_chunks n (c :: acc) s'
      | O =>
          if Ascii.eqb c "-" then rev acc :: split_chunks 2 [] s'
          else split_chunks 0 (c :: acc) s'
      end
  end.

(** [if chunk: chunks.append(chunk) else: chunks[-1] += '-'] *)
Fixpoint close_chunks (cs : list (list ascii)) : list (list ascii) :=
  match cs with
  | [] => []
  | [c] => [c]
  | [c; []] => [c ++ ["-"%char]]
  | c :: cs' => c :: close_chunks cs'
  end.

Definition code (c : ascii) : N := N_of_ascii c.

(** The loop [for k in range(len(chunks)-1, 0, -1)] that removes empty
    ranges, from the last pair of chunks to the first. *)
Fixpoint remove_empty_ranges (cs : list (list ascii)) : list (list ascii) :=
  match cs with
  | [] => []
  | c :: cs' =>
      match remove_empty_ranges cs' with
      | [] => [c]
      | d :: ds =>
          match last (map Some c) None, d with
          | Some lo, hi :: d' =>
              if (code hi <? code lo)%N
              then (removelast c ++ d') :: ds
              else c :: d :: ds
          | _, _ => c :: d :: ds
          end
      end
  end.

(** ['-'.join(...)]: inside a chunk every character is a literal. *)
Fixpoint join_chunks (cs : list (list ascii)) : list set_char :=
  match cs with
  | [] => []
  | [c] => map Chr c
  | c :: cs' => map Chr c ++ RangeOp :: join_chunks cs'
  end.

Definition has_hyphen (stuff : list ascii) : bool :=
  existsb (Ascii.eqb "-") stuff.

Definition set_of_stuff (stuff : list ascii) : piece :=
  let body :=
    if has_hyphen stuff then
      let skip := match stuff with
                  | c :: _ => if Ascii.eqb c "!" then 2 else 1
                  | [] => 1
                  end in
      join_chunks
        (remove_empty_ranges (close_chunks (split_chunks skip [] stuff)))
    else map Chr stuff in
  match body with
  | [] => Never
  | [Chr c] => if Ascii.eqb c "!" then AnyChar else CharSet false body
  | Chr c :: body' =>
      if Ascii.eqb c "!" then CharSet true body' else CharSet false body
  | RangeOp :: _ => CharSet false body
  end.

(** The main loop of [translate]. [skip] counts the characters of a
    bracket expression still to step over after [i = j+1]. *)
Fixpoint translate_from (skip : nat) (pat : list ascii) : list piece :=
  match pat with
  | [] => []
  | c :: rest =>
      match skip with
      | S k => translate_from k rest
      | O =>
          if Ascii.eqb c "*" then STAR :: translate_from 0 rest
          else if Ascii.eqb c "?" then AnyChar :: translate_from 0 rest
          else if Ascii.eqb c "[" then
            match find_stuff rest with
            | None => Lit c :: translate_from 0 rest
            | Some stuff =>
                set_of_stuff stuff :: translate_from (S (length stuff)) rest
            end
          else Lit c :: translate_from 0 rest
      end
  end.

Definition translate (pat : string) : list piece :=
  translate_from 0 (PyStr.chars pat).

(** Membership of a character in a character set. *)
Fixpoint in_set (stuff : list set_char) (c : ascii) : bool :=
  match stuff with
  | [] => false
  | Chr lo :: RangeOp :: Chr hi :: stuff' =>
      ((code lo <=? code c) && (code c <=? code hi))%N || in_set stuff' c
  | Chr a :: stuff' => Ascii.eqb a c || in_set stuff' c
  | RangeOp :: stuff' => Ascii.eqb "-" c || in_set stuff' c
  end.

Definition match_one (p : piece) (c : ascii) : bool :=
  match p with
  | STAR => true
  | AnyChar => true
  | Never => false
  | Lit a => Ascii.eqb a c
  | CharSet negated stuff => xorb negated (in_set stuff c)
  end.

(** A full match of the name against the pieces; [STAR] is [.*]. *)
Fixpoint match_pieces (ps : list piece) (s : list ascii) : bool :=
  match ps with
  | [] => match s with [] => true | _ :: _ => false end
  | STAR :: ps' =>
      (fix star (s : list ascii) : bool :=
         match_pieces ps' s
         || match s with
            | [] => false
            | _ :: s' => star s'
            end) s
  | p :: ps' =>
      match s with
      | [] => false
      | c :: s' => match_one p c && match_pieces ps' s'
      end
  end.

Definition fnmatch (name pat : string) : bool :=
  match_pieces (translate pat) (PyStr.chars name).

End Fnmatch.

(** ** Exceptions and results *)

(** [AgentPrivDenied] is the exception class of [agentpriv/exceptions.py];
    [OtherError] stands for whatever else a guarded callable raises. *)
Inductive exn : Type :=
| ValueError (msg : string)
| AgentPrivDenied (msg : string)
| OtherError (cls msg : string).

Inductive outcome (A : Type) : Type :=
| Normal (a : A)
| Raised (e : exn).

Arguments Normal {A} a.
Arguments Raised {A} e.

(** ** The policy resolver *)

Definition VALID_POLICIES : list string := ["allow"; "deny"; "ask"].

(** [str(t)] for a tuple of strings with at least two elements. *)
Definition tuple_str (t : list string) : string :=
  "(" ++ String.concat ", " (map PyStr.repr t) ++ ")".

(** The policy argument of [guard]: a [str], or a [dict] from patterns to
    policy strings, kept as the list of its items in iteration order. *)
Inductive policy_spec : Type :=
| PolicyStr (policy : string)
| PolicyDict (items : list (string * string)).

(** [best_specificity] starts as [float("-inf")] and then holds lengths. *)
Inductive specificity_bound : Type :=
| NegInf
| Len (n : nat).

(** [specificity > best_specificity] *)
Definition exceeds (specificity : nat) (best : specificity_bound) : bool :=
  match best with
  | NegInf => true
  | Len b => (b <? specificity)%nat
  end.

(** [len(pattern.replace("*", "").replace("?", ""))] *)
Definition specificity_of (pattern : string) : nat :=
  String.length (PyStr.remove_char "?" (PyStr.remove_char "*" pattern)).

(** The [for pattern, pol in policy.items()] loop, on the items still to
    visit and the two loop variables. *)
Fixpoint resolve_items (name : string) (items : list (string * string))
  (best_policy : string) (best_specificity : specificity_bound)
  : outcome string :=
  match items with
  | [] => Normal best_policy
  | (pattern, pol) :: items' =>
      if negb (PyStr.in_tuple pol VALID_POLICIES) then
        Raised (ValueError ("Invalid policy " ++ PyStr.repr pol
                            ++ " for pattern " ++ PyStr.repr pattern))
      else if Fnmatch.fnmatch name pattern then
        let specificity := specificity_of pattern in
        if exceeds specificity best_specificity
        then resolve_items name items' pol (Len specificity)
        else resolve_items name items' best_policy best_specificity
      else resolve_items name items' best_policy best_specificity
  end.

Definition _resolve_policy (name : string) (policy : policy_spec)
  : outcome string :=
  match policy with
  | PolicyStr policy =>
      if negb (PyStr.in_tuple policy VALID_POLICIES) then
        Raised (ValueError ("Invalid policy " ++ PyStr.repr policy
                            ++ ", must be one of " ++ tuple_str VALID_POLICIES))
      else Normal policy
  | PolicyDict items => resolve_items name items "deny" NegInf
  end.

(** ** Python values and calls with side effects *)

#[warnings="-register-all"]
Inductive value : Type :=
| VNone
| VBool (b : bool)
| VInt (n : Z)
| VStr (s : string)
| VList (items : list value).

(** [*args] and [**kwargs] as the wrapper receives them. *)
Definition args_t : Type := list value.
Definition kwargs_t : Type := list (string * value).

(** A computation over the program state [World]: it ends normally or by
    raising, and in both cases leaves a state behind. *)
Definition M (World A : Type) : Type := World -> outcome A * World.

Definition ret {World A} (a : A) : M World A := fun w => (Normal a, w).

Definition raise {World A} (e : exn) : M World A := fun w => (Raised e, w).

Definition bind {World A B} (m : M World A) (k : A -> M World B) : M World B :=
  fun w =>
    match m w with
    | (Normal a, w') => k a w'
    | (Raised e, w') => (Raised e, w')
    end.

Declare Scope py_scope.
Delimit Scope py_scope with py.
Notation "x <- m ;; k" := (bind m (fun x => k))
  (at level 61, m at next level, right associativity) : py_scope.

(** [a and b], where [b] is only evaluated when [a] holds. *)
Definition and_then {World} (a : bool) (b : M World bool) : M World bool :=
  if a then b else ret false.

(** What [def] and [async def] produce. Calling the first runs the body;
    calling the second only makes a coroutine, whose body runs when it is
    awaited. *)
Inductive code (World : Type) : Type :=
| Def (body : args_t -> kwargs_t -> M World value)
| AsyncDef (body : args_t -> kwargs_t -> M World value).

Arguments Def {World} body.
Arguments AsyncDef {World} body.

Record function (World : Type) : Type := mk_function {
  __name__ : string;
  __doc__ : option string;
  __code__ : code World
}.

Arguments mk_function {World}.
Arguments __name__ {World}.
Arguments __doc__ {World}.
Arguments __code__ {World}.

(** [inspect.iscoroutinefunction] *)
Definition iscoroutinefunction {World} (fn : function World) : bool :=
  match __code__ fn with
  | AsyncDef _ => true
  | Def _ => false
  end.

Inductive call_result (World : Type) : Type :=
| Returned (v : value)
| Coroutine (c : M World value).

Arguments Returned {World} v.
Arguments Coroutine {World} c.

(** Calling [fn] with positional arguments [args] and keyword arguments
    [kwargs]. *)
Definition call {World} (fn : function World) (args : args_t)
  (kwargs : kwargs_t) : M World (call_result World) :=
  match __code__ fn with
  | Def body => bind (body args kwargs) (fun v => ret (Returned v))
  | AsyncDef body => ret (Coroutine (body args kwargs))
  end.

(** [await c], and [asyncio.run(c)] seen from the caller. *)
Definition await {World} (c : M World value) : M World value := c.

(** A call carried to its result: the value of an immediate call, the
    awaited value of a coroutine. *)
Definition invoke {World} (fn : function World) (args : args_t)
  (kwargs : kwargs_t) : M World value :=
  bind (call fn args kwargs)
    (fun r => match r with
              | Returned v => ret v
              | Coroutine c => await c
              end).

(** [functools.wraps(fn)]: the wrapper takes over [__name__] and
    [__doc__]. *)
Definition wraps {World} (fn : function World) (wrapper : code World)
  : function World :=
  {| __name__ := __name__ fn; __doc__ := __doc__ fn; __code__ := wrapper |}.

(** A list comprehension over a function that may raise. *)
Fixpoint comprehension {A B} (f : A -> outcome B) (l : list A)
  : outcome (list B) :=
  match l with
  | [] => Normal []
  | x :: l' =>
      match f x with
      | Raised e => Raised e
      | Normal y =>
          match comprehension f l' with
          | Raised e => Raised e
          | Normal ys => Normal (y :: ys)
          end
      end
  end.

(** ** The call interceptor *)

Section Guard.

Variable World : Type.

(** [agentpriv.core.ask_human], the approval collaborator in force when
    a wrapper is called. It may read and change the program state and
    may raise; it is handed [args] and [kwargs] as values, so that a
    collaborator rewriting the [kwargs] dictionary in place is not
    covered. *)
Variable ask_human : string -> args_t -> kwargs_t -> M World bool.

Local Open Scope py_scope.

(** The closure [_denied] of [guard], with the variables it captures. *)
Definition _denied (fn : function World) (on_deny : string)
  (reason : string) : M World value :=
  let msg := ("Call to " ++ __name__ fn ++ "() denied by " ++ reason)%string in
  if on_deny =? "return" then ret (VStr msg)
  else raise (AgentPrivDenied msg).

(** The [async def wrapper] of [guard]; [body] is the [async def] of
    [fn]. *)
Definition async_wrapper (fn : function World)
  (body : args_t -> kwargs_t -> M World value)
  (resolved on_deny : string) (args : args_t) (kwargs : kwargs_t)
  : M World value :=
  if resolved =? "deny" then _denied fn on_deny "policy"
  else
    refused <- and_then (resolved =? "ask")
                 (ok <- ask_human (__name__ fn) args kwargs ;;
                  ret (negb ok)) ;;
    if refused then _denied fn on_deny "human"
    else await (body args kwargs).

(** The plain [def wrapper] of [guard]; [body] is the [def] of [fn]. *)
Definition sync_wrapper (fn : function World)
  (body : args_t -> kwargs_t -> M World value)
  (resolved on_deny : string) (args : args_t) (kwargs : kwargs_t)
  : M World value :=
  if resolved =? "deny" then _denied fn on_deny "policy"
  else
    refused <- and_then (resolved =? "ask")
                 (ok <- ask_human (__name__ fn) args kwargs ;;
                  ret (negb ok)) ;;
    if refused then _denied fn on_deny "human"
    else body args kwargs.

Definition guard (fn : function World) (policy : policy_spec)
  (on_deny : string) : outcome (function World) :=
  if negb (PyStr.in_tuple on_deny ["raise"; "return"]) then
    Raised (ValueError ("Invalid on_deny " ++ PyStr.repr on_deny
                        ++ ", must be 'raise' or 'return'"))
  else
    match _resolve_policy (__name__ fn) policy with
    | Raised e => Raised e
    | Normal resolved =>
        Normal
          (wraps fn
             match __code__ fn with
             | AsyncDef body =>
                 AsyncDef (async_wrapper fn body resolved on_deny)
             | Def body =>
                 Def (sync_wrapper fn body resolved on_deny)
             end)
    end.

(** The defaults of [guard]'s keyword parameters. *)
Definition default_policy : policy_spec := PolicyStr "ask".
Definition default_on_deny : string := "raise".

Definition guard_all (fns : list (function World))
  (policy : option policy_spec) : outcome (list (function World)) :=
  let policy :=
    match policy with
    | None => PolicyDict [("*", "ask")]
    | Some policy => policy
    end in
  comprehension (fun fn => guard fn policy default_on_deny) fns.

End Guard.

Arguments _denied {World} fn on_deny reason.
Arguments async_wrapper {World} ask_human fn body resolved on_deny args kwargs.
Arguments sync_wrapper {World} ask_human fn body resolved on_deny args kwargs.
Arguments guard {World} ask_human fn policy on_deny.
Arguments guard_all {World} ask_human fns policy.

(** ** The default approval collaborator ([agentpriv/prompt.py]) *)

Module Prompt.

(** The terminal: the lines the human will type, and the text printed
    so far. *)
Record console : Type := mk_console {
  stdin : list string;
  stdout : string
}.

(** [print(s)] *)
Definition print (s : string) : M console unit :=
  fun w =>
    (Normal tt,
     {| stdin := stdin w; stdout := stdout w ++ s ++ String "010" "" |}).

(** [input(prompt)]: end of input raises [EOFError]. *)
Definition input (prompt : string) : M console string :=
  fun w =>
    let w' := {| stdin := stdin w; stdout := stdout w ++ prompt |} in
    match stdin w with
    | [] => (Raised (OtherError "EOFError" "EOF when reading a line"), w')
    | line :: rest =>
        (Normal line, {| stdin := rest; stdout := stdout w' |})
    end.

(** [str.isspace] on the code points below 256. *)
Definition isspace (c : ascii) : bool :=
  let n := N_of_ascii c in
  ((9 <=? n) && (n <=? 13) || (28 <=? n) && (n <=? 32)
   || (n =? 133) || (n =? 160))%N.

Fixpoint lstrip (s : string) : string :=
  match s with
  | EmptyString => EmptyString
  | String c s' => if isspace c then lstrip s' else s
  end.

Definition reverse (s : string) : string :=
  PyStr.of_chars (rev (PyStr.chars s)).

(** [s.strip()] *)
Definition strip (s : string) : string :=
  reverse (lstrip (reverse (lstrip s))).

Definition lower_char (c : ascii) : ascii :=
  let n := N_of_ascii c in
  if ((65 <=? n) && (n <=? 90)
      || (192 <=? n) && (n <=? 222) && negb (n =? 215))%N
  then ascii_of_N (n + 32) else c.

(** [s.lower()] *)
Fixpoint lower (s : string) : string :=
  match s with
  | EmptyString => EmptyString
  | String c s' => String (lower_char c) (lower s')
  end.

(** [repr(v)] *)
Fixpoint repr_value (v : value) : string :=
  match v with
  | VNone => "None"
  | VBool true => "True"
  | VBool false => "False"
  | VInt n => NilEmpty.string_of_int (Z.to_int n)
  | VStr s => PyStr.repr s
  | VList items => "[" ++ String.concat ", " (map repr_value items) ++ "]"
  end.

Local Open Scope py_scope.

Definition ask_human (name : string) (args : args_t) (kwargs : kwargs_t)
  : M console bool :=
  let parts :=
    (map repr_value args
     ++ map (fun kv => (fst kv ++ "=" ++ repr_value (snd kv))%string) kwargs)%list in
  let sig := String.concat ", " parts in
  _ <- print (String "010" "agentpriv: " ++ name ++ "(" ++ sig ++ ")") ;;
  answer <- input "Allow this call? [y/n]: " ;;
  ret (lower (strip answer) =? "y").

End Prompt.

(** ** What the test suite observes

    [tests/test_core.py] watches a call through a list that the original
    operation appends to ([test_never_calls_function]) and through a mock
    of [ask_human] that records the calls it receives. [probe] holds both
    records next to the state [W] of the operations themselves. *)

Module Probe.

Record probe : Type := mk_probe {
  invocations : nat;
  asked : list (string * args_t * kwargs_t)
}.

Definition world (W : Type) : Type := (W * probe)%type.

Definition fresh : probe := {| invocations := 0; asked := [] |}.

(** An operation that counts each of its runs, then does [body]. *)
Definition tracked {W} (body : args_t -> kwargs_t -> M W value)
  : args_t -> kwargs_t -> M (world W) value :=
  fun args kwargs wp =>
    let '(r, w') := body args kwargs (fst wp) in
    (r, (w', {| invocations := S (invocations (snd wp));
                asked := asked (snd wp) |})).

(** [patch("agentpriv.core.ask_human", return_value=answer)] *)
Definition mock_ask {W} (answer : bool)
  : string -> args_t -> kwargs_t -> M (world W) bool :=
  fun name args kwargs wp =>
    (Normal answer,
     (fst wp, {| invocations := invocations (snd wp);
                 asked := asked (snd wp) ++ [(name, args, kwargs)] |})).

End Probe.

(** The helpers of [tests/test_core.py], called the way the tests call
    them; any other argument shape is a [TypeError], whose message is not
    modelled. *)

Module TestHelpers.

Definition type_error {W A} : M W A := raise (OtherError "TypeError" "").

(** [def read_messages(): return ["msg1", "msg2"]] *)
Definition read_messages {W} : function W :=
  {| __name__ := "read_messages"; __doc__ := None;
     __code__ := Def (fun args kwargs =>
       match args, kwargs with
       | [], [] => ret (VList [VStr "msg1"; VStr "msg2"])
       | _, _ => type_error
       end) |}.

(** [def send_message(channel, text)], called as
    [send_message(channel, text=text)] on two strings. *)
Definition send_message {W} : function W :=
  {| __name__ := "send_message"; __doc__ := None;
     __code__ := Def (fun args kwargs =>
       match args, kwargs with
       | [VStr channel], [(key, VStr text)] =>
           if key =? "text"
           then ret (VStr ("sent to " ++ channel ++ ": " ++ text))
           else type_error
       | _, _ => type_error
       end) |}.

(** [def delete_channel(name): return f"deleted {name}"] on a string. *)
Definition delete_channel {W} : function W :=
  {| __name__ := "delete_channel"; __doc__ := None;
     __code__ := Def (fun args kwargs =>
       match args, kwargs with
       | [VStr name], [] => ret (VStr ("deleted " ++ name))
       | _, _ => type_error
       end) |}.

(** [async def async_delete(name)] on a string. *)
Definition async_delete {W} : function W :=
  {| __name__ := "async_delete"; __doc__ := None;
     __code__ := AsyncDef (fun args kwargs =>
       match args, kwargs with
       | [VStr name], [] => ret (VStr ("async deleted " ++ name))
       | _, _ => type_error
       end) |}.

(** [def documented(): pass], with its docstring. *)
Definition documented {W} : function W :=
  {| __name__ := "documented"; __doc__ := Some "My doc.";
     __code__ := Def (fun args kwargs =>
       match args, kwargs with
       | [], [] => ret VNone
       | _, _ => type_error
       end) |}.

(** [def tracked(): calls.append(1)], its list of calls kept as the
    invocation count of the probe. *)
Definition tracked : function (Probe.world unit) :=
  {| __name__ := "tracked"; __doc__ := None;
     __code__ := Def (fun args kwargs =>
       match args, kwargs with
       | [], [] => Probe.tracked (fun _ _ => ret VNone) [] []
       | _, _ => type_error
       end) |}.

End TestHelpers.

(** * Vocabulary of the properties *)

(** A value is a policy when it is one of the three strings of
    [VALID_POLICIES]. *)
Definition valid_policy (p : string) : Prop :=
  p = "allow" \/ p = "deny" \/ p = "ask".

(** Every value of the mapping is a policy. *)
Definition all_valid (items : list (string * string)) : Prop :=
  forall pattern pol, In (pattern, pol) items -> valid_policy pol.

(** A wildcard character: [*] or [?]. *)
Definition is_wildcard (c : ascii) : bool :=
  Ascii.eqb c "*" || Ascii.eqb c "?".

(** The specificity of a pattern in the words of the specification: the
    count of its characters, the occurrences of [*] and [?] left out. It
    is written without reference to the resolver. *)
Fixpoint non_wildcard_count (pattern : string) : nat :=
  match pattern with
  | EmptyString => 0
  | String c rest =>
      if is_wildcard c then non_wildcard_count rest
      else S (non_wildcard_count rest)
  end.

(** The item at position [i] is the one the specification selects: its
    pattern matches the name, no matching pattern has a greater count of
    non-wildcard characters, and every matching pattern before it in
    iteration order has a smaller one. *)
Definition selects (name : string) (items : list (string * string))
  (i : nat) (pattern pol : string) : Prop :=
  nth_error items i = Some (pattern, pol)
  /\ Fnmatch.fnmatch name pattern = true
  /\ forall j p q,
       nth_error items j = Some (p, q) ->
       Fnmatch.fnmatch name p = true ->
       non_wildcard_count p <= non_wildcard_count pattern
       /\ (j < i -> non_wildcard_count p < non_wildcard_count pattern).

(** The same selection as the loop sees it, measured by the number
    [specificity_of] that the code computes. *)
Definition wins (name : string) (items : list (string * string))
  (i : nat) (pattern pol : string) : Prop :=
  nth_error items i = Some (pattern, pol)
  /\ Fnmatch.fnmatch name pattern = true
  /\ forall j p q,
       nth_error items j = Some (p, q) ->
       Fnmatch.fnmatch name p = true ->
       specificity_of p <= specificity_of pattern
       /\ (j < i -> specificity_of p < specificity_of pattern).

(** The bound held by the loop lies strictly below [n]. *)
Definition below (best : specificity_bound) (n : nat) : Prop :=
  match best with
  | NegInf => True
  | Len b => b < n
  end.

(** A specification that holds a value outside the three policies. *)
Definition invalid_spec (policy : policy_spec) : Prop :=
  match policy with
  | PolicyStr p => ~ valid_policy p
  | PolicyDict items =>
      exists pattern pol, In (pattern, pol) items /\ ~ valid_policy pol
  end.

(** The two denial modes. *)
Definition valid_on_deny (on_deny : string) : Prop :=
  on_deny = "raise" \/ on_deny = "return".

(** The message of a denial. *)
Definition denial_message (name reason : string) : string :=
  "Call to " ++ name ++ "() denied by " ++ reason.

(** The denial outcome tagged [reason]: the message as an ordinary result
    in [return] mode, the [AgentPrivDenied] failure otherwise. *)
Definition denial_outcome (on_deny name reason : string) : outcome value :=
  if on_deny =? "return" then Normal (VStr (denial_message name reason))
  else Raised (AgentPrivDenied (denial_message name reason)).

(** The wrapper [guard] builds once the policy is resolved. *)
Definition wrapper_of {World}
  (ask_human : string -> args_t -> kwargs_t -> M World bool)
  (fn : function World) (resolved on_deny : string) : function World :=
  wraps fn
    match __code__ fn with
    | AsyncDef body => AsyncDef (async_wrapper ask_human fn body resolved on_deny)
    | Def body => Def (sync_wrapper ask_human fn body resolved on_deny)
    end.

(** What a call of a wrapper does once the policy is [ask]: the
    collaborator is run once on the name and the arguments, and its answer
    decides between the original call and the denial. *)
Definition approval_gate {World}
  (ask_human : string -> args_t -> kwargs_t -> M World bool)
  (fn : function World) (on_deny : string) (args : args_t) (kwargs : kwargs_t)
  (w : World) : outcome value * World :=
  match ask_human (__name__ fn) args kwargs w with
  | (Normal true, w1) => invoke fn args kwargs w1
  | (Normal false, w1) => (denial_outcome on_deny (__name__ fn) "human", w1)
  | (Raised e, w1) => (Raised e, w1)
  end.

(** The specification [guard_all] works with: the one it is given, or the
    default mapping of every name to [ask]. *)
Definition effective_policy (policy : option policy_spec) : policy_spec :=
  match policy with
  | None => PolicyDict [("*", "ask")]
  | Some policy => policy
  end.

(** An operation that always fails:
    [def unreachable_host( *args, **kwargs): raise ConnectionError("down")],
    after counting the attempt. *)
Definition unreachable_host : function (Probe.world unit) :=
  {| __name__ := "unreachable_host"; __doc__ := None;
     __code__ := Def (Probe.tracked (fun _ _ =>
                   raise (OtherError "ConnectionError" "down"))) |}.

(** Every value of the specification is a policy. *)
Definition valid_spec (policy : policy_spec) : Prop :=
  match policy with
  | PolicyStr p => valid_policy p
  | PolicyDict items => all_valid items
  end.

(** A character that [translate] copies into the expression as itself. *)
Definition plain_char (c : ascii) : bool :=
  negb (Ascii.eqb c "*" || Ascii.eqb c "?" || Ascii.eqb c "[").

(** A pattern without any glob syntax: no star, no question mark and no
    opening bracket. *)
Definition literal_pattern (p : string) : Prop :=
  forallb plain_char (PyStr.chars p) = true.

(** A pattern that uses stars and question marks only. *)
Definition bracket_free (p : string) : Prop :=
  PyStr.contains_char "[" p = false.

(** [dict(items).get(name, "deny")], the first item counting when a key
    is repeated. *)
Definition lookup_or_deny (name : string) (items : list (string * string))
  : string :=
  match find (fun kv => fst kv =? name) items with
  | Some kv => snd kv
  | None => "deny"
  end.

(** Some pattern of the mapping matches the name. *)
Definition some_match (name : string) (items : list (string * string))
  : bool :=
  existsb (fun kv => Fnmatch.fnmatch name (fst kv)) items.

(** The piece [translate] makes of a character outside brackets. *)
Definition piece_of_char (c : ascii) : Fnmatch.piece :=
  if Ascii.eqb c "*" then Fnmatch.STAR
  else if Ascii.eqb c "?" then Fnmatch.AnyChar
  else Fnmatch.Lit c.

(** The pieces that each take one character of the name. *)
Definition takes_one (p : Fnmatch.piece) : bool :=
  match p with
  | Fnmatch.STAR => false
  | _ => true
  end.

(** A character that counts towards the specificity of a pattern. *)
Definition counted_char (c : ascii) : bool :=
  negb (Ascii.eqb c "*") && negb (Ascii.eqb c "?").

(** An operation of either kind that counts its runs in the probe. *)
Definition tracked_function {W} (name : string) (doc : option string)
  (is_async : bool) (body : args_t -> kwargs_t -> M W value)
  : function (Probe.world W) :=
  {| __name__ := name; __doc__ := doc;
     __code__ := if is_async then AsyncDef (Probe.tracked body)
                 else Def (Probe.tracked body) |}.

(** What [ask_human] has printed when it reads the answer. *)
Definition prompt_text (name : string) (args : args_t) (kwargs : kwargs_t)
  : string :=
  String "010" "agentpriv: " ++ name ++ "("
  ++ String.concat ", "
       (map Prompt.repr_value args
        ++ map (fun kv => (fst kv ++ "=" ++ Prompt.repr_value (snd kv))%string)
             kwargs)%list
  ++ ")" ++ String "010" "Allow this call? [y/n]: ".

(** A string of white space only. *)
Definition blank (s : string) : Prop :=
  forallb Prompt.isspace (PyStr.chars s) = true.

(** The answers that [ask_human] takes for an approval: the letter [y],
    in either case, with white space around it. *)
Definition says_yes (line : string) : Prop :=
  exists pre c post,
    line = (pre ++ String c post)%string
    /\ (c = "y"%char \/ c = "Y"%char) /\ blank pre /\ blank post.

(** * Properties of the policy resolver *)

Lemma in_tuple_In (x : string) (t : list string) :
  PyStr.in_tuple x t = true <-> In x t.
Proof.
  unfold PyStr.in_tuple. rewrite existsb_exists. split.
  - intros [y [Hy Heq]]. apply String.eqb_eq in Heq. now subst.
  - intros H. exists x. split; [assumption | apply String.eqb_refl].
Qed.

Lemma in_VALID_POLICIES (p : string) :
  PyStr.in_tuple p VALID_POLICIES = true <-> valid_policy p.
Proof.
  rewrite in_tuple_In. unfold VALID_POLICIES, valid_policy. simpl.
  intuition congruence.
Qed.

Lemma not_in_VALID_POLICIES (p : string) :
  PyStr.in_tuple p VALID_POLICIES = false <-> ~ valid_policy p.
Proof.
  rewrite <- in_VALID_POLICIES.
  destruct (PyStr.in_tuple p VALID_POLICIES); intuition congruence.
Qed.

Lemma all_valid_cons pattern pol items :
  all_valid ((pattern, pol) :: items) -> valid_policy pol /\ all_valid items.
Proof.
  intros H. split.
  - apply (H pattern). now left.
  - intros p q Hin. apply (H p). now right.
Qed.

(** One turn of the loop on an item with a valid value. *)
Lemma resolve_items_step name pattern pol items best_policy best :
  valid_policy pol ->
  resolve_items name ((pattern, pol) :: items) best_policy best =
  if Fnmatch.fnmatch name pattern && exceeds (specificity_of pattern) best
  then resolve_items name items pol (Len (specificity_of pattern))
  else resolve_items name items best_policy best.
Proof.
  intros Hv. apply in_VALID_POLICIES in Hv. cbn [resolve_items].
  rewrite Hv. cbn [negb].
  destruct (Fnmatch.fnmatch name pattern); cbn [andb]; [| reflexivity].
  destruct (exceeds (specificity_of pattern) best); reflexivity.
Qed.

(** With only valid values the loop runs to its end and returns. *)
Lemma resolve_items_returns name items :
  all_valid items ->
  forall best_policy best,
  exists pol, resolve_items name items best_policy best = Normal pol.
Proof.
  induction items as [| [pattern pol] items IH]; intros Hv best_policy best.
  - now exists best_policy.
  - apply all_valid_cons in Hv as [Hp Hv].
    rewrite resolve_items_step by assumption.
    destruct (_ && _); apply IH; assumption.
Qed.

(** Items that do not beat the current best leave it in place. *)
Lemma resolve_items_keeps name items :
  all_valid items ->
  forall best_policy n,
  (forall p q, In (p, q) items -> Fnmatch.fnmatch name p = true ->
               specificity_of p <= n) ->
  resolve_items name items best_policy (Len n) = Normal best_policy.
Proof.
  induction items as [| [pattern pol] items IH]; intros Hv best_policy n Hle.
  - reflexivity.
  - apply all_valid_cons in Hv as [Hp Hv].
    rewrite resolve_items_step by assumption.
    assert (Hno : Fnmatch.fnmatch name pattern
                  && exceeds (specificity_of pattern) (Len n) = false).
    { destruct (Fnmatch.fnmatch name pattern) eqn:Hm; [| reflexivity].
      simpl. apply Nat.ltb_ge. apply (Hle pattern pol); [now left | assumption]. }
    rewrite Hno. apply IH; [assumption |].
    intros p q Hin. apply (Hle p q). now right.
Qed.

(** No matching item at all leaves the initial state of the loop. *)
Lemma resolve_items_no_match name items :
  all_valid items ->
  (forall p q, In (p, q) items -> Fnmatch.fnmatch name p = false) ->
  forall best_policy best,
  resolve_items name items best_policy best = Normal best_policy.
Proof.
  induction items as [| [pattern pol] items IH]; intros Hv Hno best_policy best.
  - reflexivity.
  - apply all_valid_cons in Hv as [Hp Hv].
    rewrite resolve_items_step by assumption.
    rewrite (Hno pattern pol) by now left. simpl.
    apply IH; [assumption |]. intros p q Hin. apply (Hno p q). now right.
Qed.

Lemma exceeds_below best n : below best n -> exceeds n best = true.
Proof.
  destruct best as [| b]; simpl; [reflexivity |]. apply Nat.ltb_lt.
Qed.

(** The loop invariant behind the selection: while the winner is still
    ahead, the best specificity seen so far is below the winner's. *)
Lemma resolve_items_wins name items :
  all_valid items ->
  forall i pattern pol best_policy best,
  wins name items i pattern pol ->
  below best (specificity_of pattern) ->
  resolve_items name items best_policy best = Normal pol.
Proof.
  induction items as [| [p0 q0] items IH];
    intros Hv i pattern pol best_policy best (Hnth & Hm & Hmax) Hbelow.
  - destruct i; discriminate.
  - apply all_valid_cons in Hv as [Hp Hv].
    rewrite resolve_items_step by assumption.
    destruct i as [| i]; simpl in Hnth.
    + injection Hnth as -> ->.
      rewrite Hm, exceeds_below by assumption. simpl.
      apply resolve_items_keeps; [assumption |].
      intros p q Hin Hpm. apply In_nth_error in Hin as [j Hj].
      apply (Hmax (S j) p q); assumption.
    + assert (Htail : wins name items i pattern pol).
      { split; [assumption |]. split; [assumption |].
        intros j p q Hj Hpm. destruct (Hmax (S j) p q Hj Hpm) as [Hle Hlt].
        split; [assumption |]. intros Hji. apply Hlt. lia. }
      destruct (Fnmatch.fnmatch name p0) eqn:Hm0; simpl.
      * destruct (exceeds (specificity_of p0) best).
        -- apply (IH Hv i pattern pol); [assumption |]. simpl.
           apply (Hmax 0 p0 q0); [reflexivity | assumption | lia].
        -- apply (IH Hv i pattern pol); assumption.
      * apply (IH Hv i pattern pol); assumption.
Qed.

(** Among matching patterns there is always a winner. *)
Lemma wins_exists name items :
  (exists p q, In (p, q) items /\ Fnmatch.fnmatch name p = true) ->
  exists i pattern pol, wins name items i pattern pol.
Proof.
  induction items as [| [p0 q0] items IH]; intros (p & q & Hin & Hpm).
  - destruct Hin.
  - destruct (existsb (fun kv => Fnmatch.fnmatch name (fst kv)) items) eqn:Hex.
    + apply existsb_exists in Hex as [[p1 q1] [Hin1 Hm1]]. simpl in Hm1.
      destruct IH as (i & pattern & pol & Hnth & Hm & Hmax);
        [now exists p1, q1 |].
      destruct (Fnmatch.fnmatch name p0
                && (specificity_of pattern <=? specificity_of p0)%nat) eqn:Hhead.
      * apply andb_true_iff in Hhead as [Hm0 Hge]. apply Nat.leb_le in Hge.
        exists 0, p0, q0. split; [reflexivity |]. split; [assumption |].
        intros [| j] p' q' Hj Hpm'; simpl in Hj.
        -- injection Hj as -> ->. split; lia.
        -- destruct (Hmax j p' q' Hj Hpm') as [Hle _]. split; lia.
      * exists (S i), pattern, pol. split; [assumption |]. split; [assumption |].
        intros [| j] p' q' Hj Hpm'; simpl in Hj.
        -- injection Hj as <- <-. rewrite Hpm' in Hhead. simpl in Hhead.
           apply Nat.leb_gt in Hhead. split; [lia | intros _; assumption].
        -- destruct (Hmax j p' q' Hj Hpm') as [Hle Hlt]. split; [assumption |].
           intros Hji. apply Hlt. lia.
    + assert (Hnone : forall p' q', In (p', q') items ->
                                    Fnmatch.fnmatch name p' = false).
      { intros p' q' Hin'. destruct (Fnmatch.fnmatch name p') eqn:E; [| reflexivity].
        assert (Ht : existsb (fun kv => Fnmatch.fnmatch name (fst kv)) items = true).
        { apply existsb_exists. exists (p', q'). split; assumption. }
        congruence. }
      destruct Hin as [Heq | Hin].
      * injection Heq as <- <-.
        exists 0, p0, q0. split; [reflexivity |]. split; [assumption |].
        intros [| j] p' q' Hj Hpm'; simpl in Hj.
        -- injection Hj as -> ->. split; lia.
        -- apply nth_error_In in Hj. rewrite (Hnone p' q' Hj) in Hpm'. discriminate.
      * rewrite (Hnone p q Hin) in Hpm. discriminate.
Qed.

(** [*] matches every name. *)
Lemma fnmatch_star (name : string) : Fnmatch.fnmatch name "*" = true.
Proof.
  unfold Fnmatch.fnmatch. change (Fnmatch.translate "*") with [Fnmatch.STAR].
  induction (PyStr.chars name) as [| c s IH]; [reflexivity |].
  simpl. simpl in IH. exact IH.
Qed.

(** Closes [valid_policy] and [all_valid] goals on literal data. *)
Ltac valid_literal :=
  repeat match goal with
         | |- all_valid _ => intros ? ? ?
         | H : In _ (_ :: _) |- _ => destruct H as [H | H]
         | H : In _ [] |- _ => destruct H
         | H : (_, _) = (_, _) |- _ => injection H as <- <-
         | |- valid_policy _ => unfold valid_policy; tauto
         end.

(** Closes a [wins] goal on a literal mapping and a literal name. *)
Ltac wins_literal :=
  split; [reflexivity |]; split; [reflexivity |];
  let j := fresh "j" in
  let Hj := fresh "Hj" in
  let Hm := fresh "Hm" in
  intros j ? ? Hj Hm;
  repeat (destruct j as [| j];
          [ injection Hj as <- <-;
            first [ discriminate Hm
                  | split; [cbv; lia | intros ?; first [cbv; lia | lia]] ]
          | simpl in Hj ]);
  destruct j; discriminate Hj.

(** The number the code computes with two [replace] calls and [len] is
    the count of non-wildcard characters. *)
Lemma specificity_of_counts_non_wildcards (pattern : string) :
  specificity_of pattern = non_wildcard_count pattern.
Proof.
  unfold specificity_of.
  induction pattern as [| c pattern IH]; [reflexivity |].
  cbn [PyStr.remove_char non_wildcard_count]. unfold is_wildcard.
  destruct (Ascii.eqb c "*"); cbn [orb]; [exact IH |].
  cbn [PyStr.remove_char].
  destruct (Ascii.eqb c "?"); [exact IH |].
  cbn [String.length]. now rewrite IH.
Qed.

Lemma selects_iff_wins name items i pattern pol :
  selects name items i pattern pol <-> wins name items i pattern pol.
Proof.
  unfold selects, wins.
  split; intros (Hnth & Hm & Hmax); (split; [assumption |]);
    (split; [assumption |]); intros j p q Hj Hpm;
    specialize (Hmax j p q Hj Hpm);
    rewrite ?specificity_of_counts_non_wildcards in *; exact Hmax.
Qed.

(** C2. Over a mapping whose values are all policies, [_resolve_policy]
    returns the policy of the matching pattern with the greatest count of
    non-wildcard characters, the occurrences of [*] and [?] not counted
    ([non_wildcard_count], which is what the code's [specificity_of]
    computes), and of the first such pattern in iteration order when
    several tie (the item that the specification [selects]); as soon as
    one pattern matches, such an item exists. In particular the exact
    pattern [delete_channel] beats [delete_*] for the name
    [delete_channel], in either order. *)
Theorem resolve_selects_most_specific :
  forall (name : string) (items : list (string * string)),
    all_valid items ->
    (forall pattern, specificity_of pattern = non_wildcard_count pattern)
    /\ (forall i pattern pol,
        selects name items i pattern pol ->
        _resolve_policy name (PolicyDict items) = Normal pol)
    /\ ((exists p q, In (p, q) items /\ Fnmatch.fnmatch name p = true) ->
        exists i pattern pol,
          selects name items i pattern pol
          /\ _resolve_policy name (PolicyDict items) = Normal pol)
    /\ (forall pol_exact pol_broad,
          valid_policy pol_exact -> valid_policy pol_broad ->
          _resolve_policy "delete_channel"
            (PolicyDict [("delete_channel", pol_exact); ("delete_*", pol_broad)])
          = Normal pol_exact
          /\ _resolve_policy "delete_channel"
               (PolicyDict [("delete_*", pol_broad); ("delete_channel", pol_exact)])
             = Normal pol_exact).
Proof.
  intros name items Hv.
  assert (Hsel : forall i pattern pol,
             selects name items i pattern pol ->
             _resolve_policy name (PolicyDict items) = Normal pol).
  { intros i pattern pol Hs. apply selects_iff_wins in Hs. simpl.
    apply (resolve_items_wins name items Hv i pattern); [assumption | exact I]. }
  split; [exact specificity_of_counts_non_wildcards |].
  split; [exact Hsel |]. split.
  - intros Hex. destruct (wins_exists name items Hex) as (i & pattern & pol & Hw).
    apply selects_iff_wins in Hw.
    exists i, pattern, pol. split; [assumption |]. now apply (Hsel i pattern).
  - intros pol_exact pol_broad He Hb. split.
    + apply (resolve_items_wins "delete_channel"
               [("delete_channel", pol_exact); ("delete_*", pol_broad)])
        with (i := 0) (pattern := "delete_channel");
        [valid_literal | wins_literal | exact I].
    + apply (resolve_items_wins "delete_channel"
               [("delete_*", pol_broad); ("delete_channel", pol_exact)])
        with (i := 1) (pattern := "delete_channel");
        [valid_literal | wins_literal | exact I].
Qed.

(** The mapping of [test_specific_pattern_wins]; a mapping with a tie, in
    which the earlier item is kept; and a mapping in which the longer
    pattern has no more non-wildcard characters than the shorter one
    before it, and loses. *)
Lemma resolve_selects_most_specific_witness :
  all_valid [("delete_channel", "allow"); ("delete_*", "deny"); ("*", "allow")]
  /\ selects "delete_channel"
       [("delete_channel", "allow"); ("delete_*", "deny"); ("*", "allow")]
       0 "delete_channel" "allow"
  /\ _resolve_policy "delete_channel"
       (PolicyDict
          [("delete_channel", "allow"); ("delete_*", "deny"); ("*", "allow")])
     = Normal "allow"
  /\ selects "delete_channel"
       [("*", "allow"); ("delete_*", "deny"); ("*channel", "ask")]
       1 "delete_*" "deny"
  /\ _resolve_policy "delete_channel"
       (PolicyDict [("*", "allow"); ("delete_*", "deny"); ("*channel", "ask")])
     = Normal "deny"
  /\ selects "ab" [("ab", "deny"); ("*a*b*", "allow")] 0 "ab" "deny"
  /\ _resolve_policy "ab" (PolicyDict [("ab", "deny"); ("*a*b*", "allow")])
     = Normal "deny".
Proof.
  assert (Hv1 : all_valid
            [("delete_channel", "allow"); ("delete_*", "deny"); ("*", "allow")])
    by valid_literal.
  assert (Hv2 : all_valid
            [("*", "allow"); ("delete_*", "deny"); ("*channel", "ask")])
    by valid_literal.
  assert (Hv3 : all_valid [("ab", "deny"); ("*a*b*", "allow")])
    by valid_literal.
  assert (Hs1 : selects "delete_channel"
            [("delete_channel", "allow"); ("delete_*", "deny"); ("*", "allow")]
            0 "delete_channel" "allow") by wins_literal.
  assert (Hs2 : selects "delete_channel"
            [("*", "allow"); ("delete_*", "deny"); ("*channel", "ask")]
            1 "delete_*" "deny") by wins_literal.
  assert (Hs3 : selects "ab" [("ab", "deny"); ("*a*b*", "allow")] 0 "ab" "deny")
    by wins_literal.
  split; [exact Hv1 |]. split; [exact Hs1 |]. split.
  - exact (proj1 (proj2 (resolve_selects_most_specific _ _ Hv1)) _ _ _ Hs1).
  - split; [exact Hs2 |]. split.
    + exact (proj1 (proj2 (resolve_selects_most_specific _ _ Hv2)) _ _ _ Hs2).
    + split; [exact Hs3 |].
      exact (proj1 (proj2 (resolve_selects_most_specific _ _ Hv3)) _ _ _ Hs3).
Defined.

(** C3. Over a mapping whose values are all policies and none of whose
    patterns matches the name, [_resolve_policy] returns [deny]; so does
    the mapping [send_*] to [allow] for the name [read_messages]. *)
Theorem resolve_no_match_denies :
  forall (name : string) (items : list (string * string)),
    all_valid items ->
    (forall pattern pol,
        In (pattern, pol) items -> Fnmatch.fnmatch name pattern = false) ->
    _resolve_policy name (PolicyDict items) = Normal "deny"
    /\ _resolve_policy "read_messages" (PolicyDict [("send_*", "allow")])
       = Normal "deny".
Proof.
  intros name items Hv Hno. split.
  - simpl. apply resolve_items_no_match; assumption.
  - reflexivity.
Qed.

Lemma resolve_no_match_denies_witness :
  _resolve_policy "read_messages"
    (PolicyDict [("send_*", "allow"); ("delete_?hannel", "ask")])
  = Normal "deny".
Proof.
  refine (proj1 (resolve_no_match_denies "read_messages"
                   [("send_*", "allow"); ("delete_?hannel", "ask")] _ _)).
  - valid_literal.
  - intros pattern pol Hin.
    destruct Hin as [Hin | [Hin | []]]; injection Hin as <- <-; reflexivity.
Defined.

(** * Properties of the call interceptor *)

Lemma in_on_deny (on_deny : string) :
  PyStr.in_tuple on_deny ["raise"; "return"] = true <-> valid_on_deny on_deny.
Proof.
  rewrite in_tuple_In. unfold valid_on_deny. simpl. intuition congruence.
Qed.

Section GuardFacts.

Context {World : Type}.
Variable ask_human : string -> args_t -> kwargs_t -> M World bool.
Implicit Type fn : function World.

Lemma guard_inv fn policy on_deny g :
  guard ask_human fn policy on_deny = Normal g ->
  valid_on_deny on_deny
  /\ exists resolved,
       _resolve_policy (__name__ fn) policy = Normal resolved
       /\ g = wrapper_of ask_human fn resolved on_deny.
Proof.
  unfold guard. intros H.
  destruct (PyStr.in_tuple on_deny ["raise"; "return"]) eqn:Hd;
    cbn [negb] in H; [| discriminate].
  split; [now apply in_on_deny |].
  destruct (_resolve_policy (__name__ fn) policy) as [resolved | e];
    [| discriminate].
  exists resolved. split; [reflexivity |]. now injection H as <-.
Qed.

Lemma guard_returns fn policy on_deny resolved :
  valid_on_deny on_deny ->
  _resolve_policy (__name__ fn) policy = Normal resolved ->
  guard ask_human fn policy on_deny
  = Normal (wrapper_of ask_human fn resolved on_deny).
Proof.
  intros Hd Hr. apply in_on_deny in Hd. unfold guard.
  rewrite Hd, Hr. reflexivity.
Qed.

Lemma denied_outcome fn on_deny reason w :
  _denied fn on_deny reason w
  = (denial_outcome on_deny (__name__ fn) reason, w).
Proof.
  unfold _denied, denial_outcome, denial_message.
  destruct (on_deny =? "return"); reflexivity.
Qed.

(** The two wrappers run the same gate; they differ in how the original
    is reached. *)
Lemma async_wrapper_deny fn body on_deny args kwargs w :
  async_wrapper ask_human fn body "deny" on_deny args kwargs w
  = (denial_outcome on_deny (__name__ fn) "policy", w).
Proof. apply denied_outcome. Qed.

Lemma sync_wrapper_deny fn body on_deny args kwargs w :
  sync_wrapper ask_human fn body "deny" on_deny args kwargs w
  = (denial_outcome on_deny (__name__ fn) "policy", w).
Proof. apply denied_outcome. Qed.

Lemma async_wrapper_allow fn body on_deny args kwargs w :
  async_wrapper ask_human fn body "allow" on_deny args kwargs w
  = body args kwargs w.
Proof. reflexivity. Qed.

Lemma sync_wrapper_allow fn body on_deny args kwargs w :
  sync_wrapper ask_human fn body "allow" on_deny args kwargs w
  = body args kwargs w.
Proof. reflexivity. Qed.

Lemma async_wrapper_ask fn body on_deny args kwargs w :
  async_wrapper ask_human fn body "ask" on_deny args kwargs w
  = match ask_human (__name__ fn) args kwargs w with
    | (Normal true, w1) => body args kwargs w1
    | (Normal false, w1) => (denial_outcome on_deny (__name__ fn) "human", w1)
    | (Raised e, w1) => (Raised e, w1)
    end.
Proof.
  unfold async_wrapper, and_then, bind, ret, await. cbn [String.eqb Ascii.eqb Bool.eqb].
  destruct (ask_human (__name__ fn) args kwargs w) as [[[|] | e] w1];
    cbn [negb]; try reflexivity.
  apply denied_outcome.
Qed.

Lemma sync_wrapper_ask fn body on_deny args kwargs w :
  sync_wrapper ask_human fn body "ask" on_deny args kwargs w
  = match ask_human (__name__ fn) args kwargs w with
    | (Normal true, w1) => body args kwargs w1
    | (Normal false, w1) => (denial_outcome on_deny (__name__ fn) "human", w1)
    | (Raised e, w1) => (Raised e, w1)
    end.
Proof.
  unfold sync_wrapper, and_then, bind, ret. cbn [String.eqb Ascii.eqb Bool.eqb].
  destruct (ask_human (__name__ fn) args kwargs w) as [[[|] | e] w1];
    cbn [negb]; try reflexivity.
  apply denied_outcome.
Qed.

(** A call carried to its result runs the body, whichever the kind. *)
Lemma invoke_Def (f : function World) body args kwargs w :
  __code__ f = Def body -> invoke f args kwargs w = body args kwargs w.
Proof.
  intros H. unfold invoke, call, bind, ret. rewrite H.
  destruct (body args kwargs w) as [[v | e] w']; reflexivity.
Qed.

Lemma invoke_AsyncDef (f : function World) body args kwargs w :
  __code__ f = AsyncDef body -> invoke f args kwargs w = body args kwargs w.
Proof.
  intros H. unfold invoke, call, bind, ret, await. rewrite H. reflexivity.
Qed.

Lemma invoke_wrapper_deny fn on_deny args kwargs w :
  invoke (wrapper_of ask_human fn "deny" on_deny) args kwargs w
  = (denial_outcome on_deny (__name__ fn) "policy", w).
Proof.
  unfold wrapper_of. destruct (__code__ fn) as [body | body].
  - erewrite invoke_Def by reflexivity. apply sync_wrapper_deny.
  - erewrite invoke_AsyncDef by reflexivity. apply async_wrapper_deny.
Qed.

Lemma invoke_wrapper_allow fn on_deny args kwargs w :
  invoke (wrapper_of ask_human fn "allow" on_deny) args kwargs w
  = invoke fn args kwargs w.
Proof.
  unfold wrapper_of. destruct (__code__ fn) as [body | body] eqn:Hc.
  - erewrite invoke_Def by reflexivity.
    rewrite (invoke_Def fn body) by assumption. apply sync_wrapper_allow.
  - erewrite invoke_AsyncDef by reflexivity.
    rewrite (invoke_AsyncDef fn body) by assumption. apply async_wrapper_allow.
Qed.

Lemma invoke_wrapper_ask fn on_deny args kwargs w :
  invoke (wrapper_of ask_human fn "ask" on_deny) args kwargs w
  = approval_gate ask_human fn on_deny args kwargs w.
Proof.
  unfold wrapper_of, approval_gate.
  destruct (__code__ fn) as [body | body] eqn:Hc.
  - erewrite invoke_Def by reflexivity. rewrite sync_wrapper_ask.
    destruct (ask_human (__name__ fn) args kwargs w) as [[[|] | e] w1];
      try reflexivity.
    now rewrite (invoke_Def fn body).
  - erewrite invoke_AsyncDef by reflexivity. rewrite async_wrapper_ask.
    destruct (ask_human (__name__ fn) args kwargs w) as [[[|] | e] w1];
      try reflexivity.
    now rewrite (invoke_AsyncDef fn body).
Qed.

End GuardFacts.

(** The loop raises at the first value that is not a policy, whatever the
    patterns before it matched. *)
Lemma resolve_items_raises name pre pattern pol post :
  all_valid pre -> ~ valid_policy pol ->
  forall best_policy best,
  resolve_items name (pre ++ (pattern, pol) :: post) best_policy best
  = Raised (ValueError ("Invalid policy " ++ PyStr.repr pol
                        ++ " for pattern " ++ PyStr.repr pattern)).
Proof.
  intros Hpre Hbad. apply not_in_VALID_POLICIES in Hbad.
  induction pre as [| [p q] pre IH]; intros best_policy best.
  - cbn [app resolve_items]. rewrite Hbad. reflexivity.
  - apply all_valid_cons in Hpre as [Hq Hpre].
    change (((p, q) :: pre) ++ (pattern, pol) :: post)
      with ((p, q) :: (pre ++ (pattern, pol) :: post)).
    rewrite resolve_items_step by assumption.
    destruct (_ && _); apply IH; assumption.
Qed.

Lemma valid_policy_dec (p : string) : {valid_policy p} + {~ valid_policy p}.
Proof.
  destruct (PyStr.in_tuple p VALID_POLICIES) eqn:H.
  - left. now apply in_VALID_POLICIES.
  - right. now apply not_in_VALID_POLICIES.
Qed.

(** A mapping with a bad value splits at its first bad value. *)
Lemma first_invalid (items : list (string * string)) :
  (exists pattern pol, In (pattern, pol) items /\ ~ valid_policy pol) ->
  exists pre pattern pol post,
    items = pre ++ (pattern, pol) :: post
    /\ all_valid pre /\ ~ valid_policy pol.
Proof.
  induction items as [| [p q] items IH]; intros (pattern & pol & Hin & Hbad).
  - destruct Hin.
  - destruct (valid_policy_dec q) as [Hq | Hq].
    + destruct Hin as [Heq | Hin]; [injection Heq as -> ->; contradiction |].
      destruct IH as (pre & pattern' & pol' & post & -> & Hpre & Hbad');
        [now exists pattern, pol |].
      exists ((p, q) :: pre), pattern', pol', post.
      split; [reflexivity |]. split; [| assumption].
      intros p1 q1 [Heq | Hin1]; [now injection Heq as <- <- |].
      now apply (Hpre p1).
    + exists [], p, q, items. split; [reflexivity |]. split; [| assumption].
      intros ? ? [].
Qed.

(** C4. [guard] fails while it is being built, so that no wrapper exists
    to be called: it raises [ValueError] whenever [on_deny] is neither
    [raise] nor [return], whenever the policy is a string outside
    [allow], [deny], [ask], and whenever the policy is a mapping with such
    a value under any pattern, matching the name or not. The check of
    [on_deny] comes first and carries its own message; with a valid
    [on_deny] the message names the bad policy, for a mapping the first
    bad value in iteration order. *)
Theorem guard_validates_eagerly :
  forall (World : Type)
         (ask_human : string -> args_t -> kwargs_t -> M World bool)
         (fn : function World) (policy : policy_spec) (on_deny : string),
    ~ valid_on_deny on_deny \/ invalid_spec policy ->
    (exists msg, guard ask_human fn policy on_deny = Raised (ValueError msg))
    /\ (~ valid_on_deny on_deny ->
        guard ask_human fn policy on_deny
        = Raised (ValueError ("Invalid on_deny " ++ PyStr.repr on_deny
                              ++ ", must be 'raise' or 'return'")))
    /\ (valid_on_deny on_deny ->
        match policy with
        | PolicyStr p =>
            guard ask_human fn policy on_deny
            = Raised (ValueError
                        ("Invalid policy " ++ PyStr.repr p
                         ++ ", must be one of ('allow', 'deny', 'ask')"))
        | PolicyDict items =>
            forall pre pattern pol post,
              items = pre ++ (pattern, pol) :: post ->
              all_valid pre -> ~ valid_policy pol ->
              guard ask_human fn policy on_deny
              = Raised (ValueError
                          ("Invalid policy " ++ PyStr.repr pol
                           ++ " for pattern " ++ PyStr.repr pattern))
        end).
Proof.
  intros World ask_human fn policy on_deny Hbad.
  assert (Hmode : ~ valid_on_deny on_deny ->
            guard ask_human fn policy on_deny
            = Raised (ValueError ("Invalid on_deny " ++ PyStr.repr on_deny
                                  ++ ", must be 'raise' or 'return'"))).
  { intros Hd. unfold guard.
    destruct (PyStr.in_tuple on_deny ["raise"; "return"]) eqn:E; [| reflexivity].
    apply in_on_deny in E. contradiction. }
  assert (Hstr : forall p, policy = PolicyStr p -> ~ valid_policy p ->
            valid_on_deny on_deny ->
            guard ask_human fn policy on_deny
            = Raised (ValueError
                        ("Invalid policy " ++ PyStr.repr p
                         ++ ", must be one of ('allow', 'deny', 'ask')"))).
  { intros p -> Hp Hd. apply in_on_deny in Hd. unfold guard. rewrite Hd.
    cbn [negb _resolve_policy].
    apply not_in_VALID_POLICIES in Hp. rewrite Hp. reflexivity. }
  assert (Hdict : forall items pre pattern pol post,
            policy = PolicyDict items ->
            items = pre ++ (pattern, pol) :: post ->
            all_valid pre -> ~ valid_policy pol ->
            valid_on_deny on_deny ->
            guard ask_human fn policy on_deny
            = Raised (ValueError
                        ("Invalid policy " ++ PyStr.repr pol
                         ++ " for pattern " ++ PyStr.repr pattern))).
  { intros items pre pattern pol post -> -> Hpre Hp Hd.
    apply in_on_deny in Hd. unfold guard. rewrite Hd.
    cbn [negb _resolve_policy].
    rewrite resolve_items_raises by assumption. reflexivity. }
  split; [| split].
  - destruct (PyStr.in_tuple on_deny ["raise"; "return"]) eqn:E.
    + apply in_on_deny in E.
      destruct Hbad as [Hd | Hspec]; [contradiction |].
      destruct policy as [p | items].
      * eexists. apply (Hstr p); [reflexivity | exact Hspec | assumption].
      * destruct (first_invalid items Hspec)
          as (pre & pattern & pol & post & Heq & Hpre & Hp).
        eexists. apply (Hdict items pre pattern pol post);
          [reflexivity | assumption..].
    + eexists. apply Hmode. intros Hd. apply in_on_deny in Hd. congruence.
  - exact Hmode.
  - intros Hd. destruct Hbad as [Hno | Hspec]; [contradiction |].
    destruct policy as [p | items].
    + apply (Hstr p); [reflexivity | exact Hspec | assumption].
    + intros pre pattern pol post Heq Hpre Hp.
      apply (Hdict items pre pattern pol post); [reflexivity | assumption..].
Qed.

(** The misconfigurations of [TestEdgeCases], and a bad value under a
    pattern that does not match the name. *)
Lemma guard_validates_eagerly_witness :
  guard (Probe.mock_ask true) (@TestHelpers.read_messages (Probe.world unit))
    (PolicyStr "yolo") "raise"
  = Raised (ValueError
              "Invalid policy 'yolo', must be one of ('allow', 'deny', 'ask')")
  /\ guard (Probe.mock_ask true) (@TestHelpers.read_messages (Probe.world unit))
       (PolicyDict [("read_*", "allow"); ("delete_*", "yolo")]) "return"
     = Raised (ValueError "Invalid policy 'yolo' for pattern 'delete_*'")
  /\ guard (Probe.mock_ask true) (@TestHelpers.read_messages (Probe.world unit))
       (PolicyStr "deny") "explode"
     = Raised (ValueError "Invalid on_deny 'explode', must be 'raise' or 'return'").
Proof.
  assert (Hyolo : ~ valid_policy "yolo")
    by (intros [H | [H | H]]; discriminate H).
  assert (Hexplode : ~ valid_on_deny "explode")
    by (intros [H | H]; discriminate H).
  split; [| split].
  - exact (proj2 (proj2 (guard_validates_eagerly _ (Probe.mock_ask true)
                           TestHelpers.read_messages (PolicyStr "yolo") "raise"
                           (or_intror Hyolo)))
             (or_introl eq_refl)).
  - refine (proj2 (proj2 (guard_validates_eagerly _ (Probe.mock_ask true)
                            TestHelpers.read_messages
                            (PolicyDict [("read_*", "allow"); ("delete_*", "yolo")])
                            "return" (or_intror _)))
              (or_intror eq_refl) [("read_*", "allow")] "delete_*" "yolo" []
              eq_refl _ Hyolo).
    + exists "delete_*", "yolo". split; [right; left; reflexivity | exact Hyolo].
    + valid_literal.
  - exact (proj1 (proj2 (guard_validates_eagerly _ (Probe.mock_ask true)
                           TestHelpers.read_messages (PolicyStr "deny") "explode"
                           (or_introl Hexplode)))
             Hexplode).
Defined.

(** C1. When the policy resolved for an operation is [deny], every call
    of the wrapper [guard] returned ends in the denial outcome tagged
    [policy] and leaves the program state exactly as it found it: the
    original operation has not run (a counter it keeps has not moved) and
    the collaborator has not been consulted. This holds for the immediate
    wrapper, whose call is the denial, and for the suspending wrapper,
    whose call only makes a coroutine and whose awaited result is the
    denial. *)
Theorem deny_short_circuits :
  forall (World : Type)
         (ask_human : string -> args_t -> kwargs_t -> M World bool)
         (fn g : function World) (policy : policy_spec) (on_deny : string),
    guard ask_human fn policy on_deny = Normal g ->
    _resolve_policy (__name__ fn) policy = Normal "deny" ->
    forall (args : args_t) (kwargs : kwargs_t) (w : World),
      invoke g args kwargs w
      = (denial_outcome on_deny (__name__ fn) "policy", w)
      /\ if iscoroutinefunction fn
         then exists c,
             call g args kwargs w = (Normal (Coroutine c), w)
             /\ forall w',
                 await c w' = (denial_outcome on_deny (__name__ fn) "policy", w')
         else call g args kwargs w
              = (match denial_outcome on_deny (__name__ fn) "policy" with
                 | Normal v => Normal (Returned v)
                 | Raised e => Raised e
                 end, w).
Proof.
  intros World ask_human fn g policy on_deny Hg Hr args kwargs w.
  apply guard_inv in Hg as (_ & resolved & Hr' & ->).
  rewrite Hr in Hr'. injection Hr' as <-.
  split; [apply invoke_wrapper_deny |].
  unfold iscoroutinefunction, wrapper_of, call, wraps.
  destruct (__code__ fn) as [body | body]; cbn [__code__].
  - unfold bind. rewrite sync_wrapper_deny.
    destruct (denial_outcome on_deny (__name__ fn) "policy"); reflexivity.
  - eexists. split; [reflexivity |]. intros w'. apply async_wrapper_deny.
Qed.

(** [test_never_calls_function] and [test_async_deny_returns_string]. *)
Lemma deny_short_circuits_witness :
  (exists g,
      guard (Probe.mock_ask true) TestHelpers.tracked (PolicyStr "deny") "raise"
      = Normal g
      /\ invoke g [] [] (tt, Probe.fresh)
         = (Raised (AgentPrivDenied "Call to tracked() denied by policy"),
            (tt, {| Probe.invocations := 0; Probe.asked := [] |})))
  /\ (exists g,
         guard (Probe.mock_ask true) TestHelpers.async_delete
           (PolicyDict [("*_delete", "deny"); ("*", "allow")]) "return"
         = Normal g
         /\ invoke g [VStr "general"] [] (tt, Probe.fresh)
            = (Normal (VStr "Call to async_delete() denied by policy"),
               (tt, Probe.fresh))).
Proof.
  split.
  - eexists. split; [reflexivity |].
    exact (proj1 (deny_short_circuits _ (Probe.mock_ask true)
                    TestHelpers.tracked _ (PolicyStr "deny") "raise"
                    eq_refl eq_refl [] [] (tt, Probe.fresh))).
  - eexists. split; [reflexivity |].
    exact (proj1 (deny_short_circuits _ (Probe.mock_ask true)
                    TestHelpers.async_delete _
                    (PolicyDict [("*_delete", "deny"); ("*", "allow")]) "return"
                    eq_refl eq_refl [VStr "general"] [] (tt, Probe.fresh))).
Defined.

(** C5. When the policy resolved for an operation is [ask], a call of the
    wrapper is the [approval_gate]: the collaborator runs once, on the
    name of the operation and the positional and keyword arguments of the
    call, before anything else; if it answers true the call continues as
    the call of the original from the state the collaborator left, with
    that call's result; if it answers false the call ends there in the
    denial outcome tagged [human], the original not having run. *)
Theorem ask_consults_collaborator_once :
  forall (World : Type)
         (ask_human : string -> args_t -> kwargs_t -> M World bool)
         (fn g : function World) (policy : policy_spec) (on_deny : string),
    guard ask_human fn policy on_deny = Normal g ->
    _resolve_policy (__name__ fn) policy = Normal "ask" ->
    forall (args : args_t) (kwargs : kwargs_t) (w : World),
      invoke g args kwargs w = approval_gate ask_human fn on_deny args kwargs w
      /\ (forall w1,
             ask_human (__name__ fn) args kwargs w = (Normal true, w1) ->
             invoke g args kwargs w = invoke fn args kwargs w1)
      /\ (forall w1,
             ask_human (__name__ fn) args kwargs w = (Normal false, w1) ->
             invoke g args kwargs w
             = (denial_outcome on_deny (__name__ fn) "human", w1)).
Proof.
  intros World ask_human fn g policy on_deny Hg Hr args kwargs w.
  apply guard_inv in Hg as (_ & resolved & Hr' & ->).
  rewrite Hr in Hr'. injection Hr' as <-.
  rewrite invoke_wrapper_ask. unfold approval_gate.
  split; [reflexivity |].
  split; intros w1 Hask; rewrite Hask; reflexivity.
Qed.

(** [test_approved] and [test_denied] under the recording mock: one
    recorded call with the name and the arguments; the tracked original
    runs once when approved and not at all when refused. Last, the
    collaborator of [prompt.py] at a terminal where the human types
    [ Y]: one prompt is printed and one line is read. *)
Lemma ask_consults_collaborator_once_witness :
  (exists g,
      guard (Probe.mock_ask true) (@TestHelpers.send_message (Probe.world unit))
        (PolicyStr "ask") "raise" = Normal g
      /\ invoke g [VStr "general"] [("text", VStr "hi")] (tt, Probe.fresh)
         = (Normal (VStr "sent to general: hi"),
            (tt, {| Probe.invocations := 0;
                    Probe.asked :=
                      [("send_message", [VStr "general"], [("text", VStr "hi")])]
                 |})))
  /\ (exists g,
         guard (Probe.mock_ask true) TestHelpers.tracked
           (PolicyDict [("*", "ask")]) "raise" = Normal g
         /\ invoke g [] [] (tt, Probe.fresh)
            = (Normal VNone,
               (tt, {| Probe.invocations := 1;
                       Probe.asked := [("tracked", [], [])] |})))
  /\ (exists g,
         guard (Probe.mock_ask false) TestHelpers.tracked
           (PolicyDict [("*", "ask")]) "raise" = Normal g
         /\ invoke g [] [] (tt, Probe.fresh)
            = (Raised (AgentPrivDenied "Call to tracked() denied by human"),
               (tt, {| Probe.invocations := 0;
                       Probe.asked := [("tracked", [], [])] |})))
  /\ (exists g,
         guard Prompt.ask_human TestHelpers.send_message
           (PolicyStr "ask") "raise" = Normal g
         /\ invoke g [VStr "general"] [("text", VStr "hi")]
              {| Prompt.stdin := [" Y"; "n"]; Prompt.stdout := "" |}
            = (Normal (VStr "sent to general: hi"),
               {| Prompt.stdin := ["n"];
                  Prompt.stdout :=
                    String "010" "agentpriv: send_message('general', text='hi')"
                    ++ String "010" "Allow this call? [y/n]: " |})).
Proof.
  split; [| split; [| split]].
  - eexists. split; [reflexivity |].
    exact (proj1 (ask_consults_collaborator_once _ (Probe.mock_ask true)
                    TestHelpers.send_message _ (PolicyStr "ask") "raise"
                    eq_refl eq_refl [VStr "general"] [("text", VStr "hi")]
                    (tt, Probe.fresh))).
  - eexists. split; [reflexivity |].
    exact (proj1 (ask_consults_collaborator_once _ (Probe.mock_ask true)
                    TestHelpers.tracked _ (PolicyDict [("*", "ask")]) "raise"
                    eq_refl eq_refl [] [] (tt, Probe.fresh))).
  - eexists. split; [reflexivity |].
    exact (proj1 (ask_consults_collaborator_once _ (Probe.mock_ask false)
                    TestHelpers.tracked _ (PolicyDict [("*", "ask")]) "raise"
                    eq_refl eq_refl [] [] (tt, Probe.fresh))).
  - eexists. split; [reflexivity |].
    exact (proj1 (ask_consults_collaborator_once _ Prompt.ask_human
                    TestHelpers.send_message _ (PolicyStr "ask") "raise"
                    eq_refl eq_refl [VStr "general"] [("text", VStr "hi")]
                    {| Prompt.stdin := [" Y"; "n"]; Prompt.stdout := "" |})).
Defined.

(** C6. When the policy resolved for an operation is [allow], a call of
    the wrapper is the call of the original on the same arguments: from
    every state both end with the same result and the same final state,
    a normal result being returned as it is and a failure of the original
    being raised as it is. The immediate wrapper's call equals the
    original's call; the suspending wrapper's call makes a coroutine that
    runs as the original's coroutine does. *)
Theorem allow_is_transparent :
  forall (World : Type)
         (ask_human : string -> args_t -> kwargs_t -> M World bool)
         (fn g : function World) (policy : policy_spec) (on_deny : string),
    guard ask_human fn policy on_deny = Normal g ->
    _resolve_policy (__name__ fn) policy = Normal "allow" ->
    forall (args : args_t) (kwargs : kwargs_t) (w : World),
      invoke g args kwargs w = invoke fn args kwargs w
      /\ (forall v w',
             invoke fn args kwargs w = (Normal v, w') ->
             invoke g args kwargs w = (Normal v, w'))
      /\ (forall e w',
             invoke fn args kwargs w = (Raised e, w') ->
             invoke g args kwargs w = (Raised e, w'))
      /\ match __code__ fn with
         | Def _ => call g args kwargs w = call fn args kwargs w
         | AsyncDef body =>
             exists c,
               call g args kwargs w = (Normal (Coroutine c), w)
               /\ call fn args kwargs w
                  = (Normal (Coroutine (body args kwargs)), w)
               /\ forall w', await c w' = await (body args kwargs) w'
         end.
Proof.
  intros World ask_human fn g policy on_deny Hg Hr args kwargs w.
  apply guard_inv in Hg as (_ & resolved & Hr' & ->).
  rewrite Hr in Hr'. injection Hr' as <-.
  assert (Heq : invoke (wrapper_of ask_human fn "allow" on_deny) args kwargs w
                = invoke fn args kwargs w) by apply invoke_wrapper_allow.
  split; [exact Heq |].
  split; [intros v w' H; now rewrite Heq |].
  split; [intros e w' H; now rewrite Heq |].
  unfold wrapper_of, call, wraps.
  destruct (__code__ fn) as [body | body]; cbn [__code__].
  - reflexivity.
  - eexists. split; [reflexivity |]. split; [reflexivity |].
    intros w'. exact (async_wrapper_allow ask_human fn body on_deny args kwargs w').
Qed.

(** [test_passes_args], and a failure that passes through the gate. *)
Lemma allow_is_transparent_witness :
  (exists g,
      guard (Probe.mock_ask false) (@TestHelpers.send_message (Probe.world unit))
        (PolicyStr "allow") "raise" = Normal g
      /\ invoke g [VStr "general"] [("text", VStr "hello")] (tt, Probe.fresh)
         = (Normal (VStr "sent to general: hello"), (tt, Probe.fresh)))
  /\ (exists g,
         guard (Probe.mock_ask false) unreachable_host
           (PolicyDict [("delete_*", "deny"); ("*", "allow")]) "return"
         = Normal g
         /\ invoke g [VInt 7] [] (tt, Probe.fresh)
            = (Raised (OtherError "ConnectionError" "down"),
               (tt, {| Probe.invocations := 1; Probe.asked := [] |}))).
Proof.
  split.
  - eexists. split; [reflexivity |].
    exact (proj1 (allow_is_transparent _ (Probe.mock_ask false)
                    TestHelpers.send_message _ (PolicyStr "allow") "raise"
                    eq_refl eq_refl [VStr "general"] [("text", VStr "hello")]
                    (tt, Probe.fresh))).
  - eexists. split; [reflexivity |].
    exact (proj1 (allow_is_transparent _ (Probe.mock_ask false)
                    unreachable_host _
                    (PolicyDict [("delete_*", "deny"); ("*", "allow")]) "return"
                    eq_refl eq_refl [VInt 7] [] (tt, Probe.fresh))).
Defined.

(** C7. A call that is denied, by the policy [deny] or by the collaborator
    answering false under [ask], ends as [on_deny] says. With [raise] the
    wrapper raises [AgentPrivDenied] with the message
    [Call to {name}() denied by {reason}], the reason being [policy] or
    [human]; with [return] it returns that message as the ordinary string
    result of the call and raises nothing. [on_deny] is one of the two. *)
Theorem denial_is_raised_or_returned :
  forall (World : Type)
         (ask_human : string -> args_t -> kwargs_t -> M World bool)
         (fn g : function World) (policy : policy_spec) (on_deny : string)
         (args : args_t) (kwargs : kwargs_t) (w w1 : World) (reason : string),
    guard ask_human fn policy on_deny = Normal g ->
    (_resolve_policy (__name__ fn) policy = Normal "deny"
     /\ reason = "policy" /\ w1 = w)
    \/ (_resolve_policy (__name__ fn) policy = Normal "ask"
        /\ reason = "human"
        /\ ask_human (__name__ fn) args kwargs w = (Normal false, w1)) ->
    (on_deny = "raise"
     /\ invoke g args kwargs w
        = (Raised (AgentPrivDenied
                     ("Call to " ++ __name__ fn ++ "() denied by " ++ reason)),
           w1)
     /\ _denied fn on_deny reason w1
        = (Raised (AgentPrivDenied
                     ("Call to " ++ __name__ fn ++ "() denied by " ++ reason)),
           w1))
    \/ (on_deny = "return"
        /\ invoke g args kwargs w
           = (Normal (VStr ("Call to " ++ __name__ fn ++ "() denied by " ++ reason)),
              w1)
        /\ _denied fn on_deny reason w1
           = (Normal (VStr ("Call to " ++ __name__ fn ++ "() denied by " ++ reason)),
              w1)).
Proof.
  intros World ask_human fn g policy on_deny args kwargs w w1 reason Hg Hden.
  apply guard_inv in Hg as (Hmode & resolved & Hr' & ->).
  assert (Hinv : invoke (wrapper_of ask_human fn resolved on_deny) args kwargs w
                 = (denial_outcome on_deny (__name__ fn) reason, w1)).
  { destruct Hden as [(Hr & -> & ->) | (Hr & -> & Hask)];
      rewrite Hr in Hr'; injection Hr' as <-.
    - apply invoke_wrapper_deny.
    - rewrite invoke_wrapper_ask. unfold approval_gate. now rewrite Hask. }
  rewrite Hinv, denied_outcome. unfold denial_outcome, denial_message.
  destruct Hmode as [-> | ->]; [left | right]; repeat split; reflexivity.
Qed.

(** The four denials of [TestGuardDeny], [TestGuardAsk] and
    [TestOnDenyReturn]. *)
Lemma denial_is_raised_or_returned_witness :
  (exists g,
      guard (Probe.mock_ask false) (@TestHelpers.delete_channel (Probe.world unit))
        (PolicyStr "deny") "raise" = Normal g
      /\ invoke g [VStr "general"] [] (tt, Probe.fresh)
         = (Raised (AgentPrivDenied "Call to delete_channel() denied by policy"),
            (tt, Probe.fresh)))
  /\ (exists g,
         guard (Probe.mock_ask false)
           (@TestHelpers.send_message (Probe.world unit))
           (PolicyStr "ask") "return" = Normal g
         /\ invoke g [VStr "general"] [("text", VStr "hi")] (tt, Probe.fresh)
            = (Normal (VStr "Call to send_message() denied by human"),
               (tt, {| Probe.invocations := 0;
                       Probe.asked :=
                         [("send_message", [VStr "general"],
                           [("text", VStr "hi")])] |}))).
Proof.
  split.
  - eexists. split; [reflexivity |].
    destruct (denial_is_raised_or_returned _ (Probe.mock_ask false)
                TestHelpers.delete_channel _ (PolicyStr "deny") "raise"
                [VStr "general"] [] (tt, Probe.fresh) (tt, Probe.fresh) "policy"
                eq_refl (or_introl (conj eq_refl (conj eq_refl eq_refl))))
      as [(_ & H & _) | (Hmode & _)]; [exact H | discriminate Hmode].
  - eexists. split; [reflexivity |].
    destruct (denial_is_raised_or_returned _ (Probe.mock_ask false)
                TestHelpers.send_message _ (PolicyStr "ask") "return"
                [VStr "general"] [("text", VStr "hi")] (tt, Probe.fresh)
                (tt, {| Probe.invocations := 0;
                        Probe.asked :=
                          [("send_message", [VStr "general"],
                            [("text", VStr "hi")])] |})
                "human"
                eq_refl (or_intror (conj eq_refl (conj eq_refl eq_refl))))
      as [(Hmode & _) | (_ & H & _)]; [discriminate Hmode | exact H].
Defined.

(** C8. The wrapper [guard] returns carries the name and the
    documentation of the original and is called the way the original is:
    it is a coroutine function exactly when the original is one, and then
    a call of it only makes a coroutine. Under [deny] the result of a
    wrapper depends on the name alone, so the awaited result of a
    suspending wrapper is the result of the immediate wrapper of an
    operation of that name. *)
Theorem guard_preserves_identity :
  forall (World : Type)
         (ask_human : string -> args_t -> kwargs_t -> M World bool)
         (fn g : function World) (policy : policy_spec) (on_deny : string),
    guard ask_human fn policy on_deny = Normal g ->
    __name__ g = __name__ fn
    /\ __doc__ g = __doc__ fn
    /\ iscoroutinefunction g = iscoroutinefunction fn
    /\ (forall args kwargs w,
           if iscoroutinefunction fn
           then exists c, call g args kwargs w = (Normal (Coroutine c), w)
           else exists r, call g args kwargs w
                          = (match fst r with
                             | Normal v => Normal (Returned v)
                             | Raised e => Raised e
                             end, snd r)
                          /\ invoke g args kwargs w = r)
    /\ (_resolve_policy (__name__ fn) policy = Normal "deny" ->
        forall (fn' g' : function World),
          __name__ fn' = __name__ fn ->
          guard ask_human fn' policy on_deny = Normal g' ->
          forall args kwargs w,
            invoke g args kwargs w = invoke g' args kwargs w
            /\ invoke g args kwargs w
               = (denial_outcome on_deny (__name__ fn) "policy", w)).
Proof.
  intros World ask_human fn g policy on_deny Hg.
  apply guard_inv in Hg as (Hmode & resolved & Hr & ->).
  split; [reflexivity |]. split; [reflexivity |].
  split; [| split].
  - unfold iscoroutinefunction, wrapper_of, wraps. cbn [__code__].
    destruct (__code__ fn); reflexivity.
  - intros args kwargs w.
    unfold iscoroutinefunction, wrapper_of, wraps, invoke, call, bind, ret.
    destruct (__code__ fn) as [body | body]; cbn [__code__].
    + exists (sync_wrapper ask_human fn body resolved on_deny args kwargs w).
      destruct (sync_wrapper ask_human fn body resolved on_deny args kwargs w)
        as [[v | e] w']; split; reflexivity.
    + eexists. reflexivity.
  - intros Hdeny fn' g' Hname Hg' args kwargs w.
    rewrite Hdeny in Hr. injection Hr as <-.
    apply guard_inv in Hg' as (_ & resolved' & Hr' & ->).
    rewrite Hname, Hdeny in Hr'. injection Hr' as <-.
    rewrite !invoke_wrapper_deny, Hname. split; reflexivity.
Qed.

(** [test_preserves_docstring], and [test_deny] for a coroutine function
    next to an immediate function of the same name. *)
Lemma guard_preserves_identity_witness :
  (exists g,
      guard (Probe.mock_ask true) (@TestHelpers.documented (Probe.world unit))
        (PolicyStr "allow") "raise" = Normal g
      /\ __name__ g = "documented" /\ __doc__ g = Some "My doc."
      /\ iscoroutinefunction g = false)
  /\ (exists g,
         guard (Probe.mock_ask true)
           (@TestHelpers.async_delete (Probe.world unit))
           (PolicyStr "deny") "raise" = Normal g
         /\ __name__ g = "async_delete" /\ __doc__ g = None
         /\ iscoroutinefunction g = true).
Proof.
  split.
  - eexists. split; [reflexivity |].
    destruct (guard_preserves_identity _ (Probe.mock_ask true)
                (@TestHelpers.documented (Probe.world unit)) _
                (PolicyStr "allow") "raise" eq_refl)
      as (Hn & Hd & Hc & _).
    exact (conj Hn (conj Hd Hc)).
  - eexists. split; [reflexivity |].
    destruct (guard_preserves_identity _ (Probe.mock_ask true)
                (@TestHelpers.async_delete (Probe.world unit)) _
                (PolicyStr "deny") "raise" eq_refl)
      as (Hn & Hd & Hc & _).
    exact (conj Hn (conj Hd Hc)).
Defined.

(** * Properties of the batch helper *)

Lemma comprehension_Forall2 {A B} (f : A -> outcome B) (l : list A) :
  forall ys, comprehension f l = Normal ys ->
             Forall2 (fun x y => f x = Normal y) l ys.
Proof.
  induction l as [| x l IH]; intros ys H; simpl in H.
  - injection H as <-. constructor.
  - destruct (f x) as [y | e] eqn:Hx; [| discriminate].
    destruct (comprehension f l) as [ys' | e]; [| discriminate].
    injection H as <-. constructor; [assumption | now apply IH].
Qed.

Lemma comprehension_returns {A B} (f : A -> outcome B) (l : list A) :
  (forall x, In x l -> exists y, f x = Normal y) ->
  exists ys, comprehension f l = Normal ys.
Proof.
  induction l as [| x l IH]; intros H; simpl.
  - now exists [].
  - destruct (H x (or_introl eq_refl)) as [y ->].
    destruct IH as [ys ->]; [intros x' Hin; apply H; now right |].
    now exists (y :: ys).
Qed.

Lemma Forall2_nth_error {A B} (R : A -> B -> Prop) (l : list A) (l' : list B) :
  Forall2 R l l' ->
  forall i x, nth_error l i = Some x ->
              exists y, nth_error l' i = Some y /\ R x y.
Proof.
  induction 1 as [| a b l l' Hab _ IH]; intros [| i] x Hx; simpl in Hx;
    try discriminate.
  - injection Hx as <-. now exists b.
  - now apply IH.
Qed.

(** Whatever [_resolve_policy] returns is one of the three policies. *)
Lemma resolve_items_valid name items :
  forall best_policy best pol,
    valid_policy best_policy ->
    resolve_items name items best_policy best = Normal pol ->
    valid_policy pol.
Proof.
  induction items as [| [pattern q] items IH];
    intros best_policy best pol Hb H.
  - injection H as <-. assumption.
  - destruct (valid_policy_dec q) as [Hq | Hq].
    + rewrite resolve_items_step in H by assumption.
      destruct (_ && _); (eapply IH; [| exact H]; assumption).
    + rewrite (resolve_items_raises name [] pattern q items) in H;
        [discriminate | intros ? ? [] | assumption].
Qed.

Lemma resolve_policy_valid name policy pol :
  _resolve_policy name policy = Normal pol -> valid_policy pol.
Proof.
  destruct policy as [p | items]; cbn [_resolve_policy].
  - destruct (PyStr.in_tuple p VALID_POLICIES) eqn:Hp; cbn [negb];
      [| discriminate].
    intros H. injection H as <-. now apply in_VALID_POLICIES.
  - apply resolve_items_valid. unfold valid_policy. tauto.
Qed.

(** The default mapping resolves to [ask] for every name. *)
Lemma default_policy_asks (name : string) :
  _resolve_policy name (effective_policy None) = Normal "ask".
Proof.
  cbn [effective_policy _resolve_policy].
  rewrite resolve_items_step by (unfold valid_policy; tauto).
  rewrite fnmatch_star. reflexivity.
Qed.

(** C9. When [guard_all] returns, its result has the length of the
    operations it was given and holds at each position the wrapper that
    [guard] returns for the operation at that position, under the one
    specification and the default denial mode, each name resolved on its
    own. Without a specification the mapping of [*] to [ask] is used:
    [guard_all] then always returns, every name resolves to [ask], and
    every call of a wrapper goes through the approval of the
    collaborator. *)
Theorem guard_all_guards_each :
  forall (World : Type)
         (ask_human : string -> args_t -> kwargs_t -> M World bool)
         (fns gs : list (function World)) (policy : option policy_spec),
    guard_all ask_human fns policy = Normal gs ->
    length gs = length fns
    /\ Forall2 (fun fn g =>
                  guard ask_human fn (effective_policy policy) "raise" = Normal g)
         fns gs
    /\ (forall i fn,
           nth_error fns i = Some fn ->
           exists g,
             nth_error gs i = Some g
             /\ guard ask_human fn (effective_policy policy) "raise" = Normal g)
    /\ (exists gs0, guard_all ask_human fns None = Normal gs0)
    /\ (policy = None ->
        forall i fn g,
          nth_error fns i = Some fn -> nth_error gs i = Some g ->
          _resolve_policy (__name__ fn) (PolicyDict [("*", "ask")]) = Normal "ask"
          /\ forall args kwargs w,
              invoke g args kwargs w
              = approval_gate ask_human fn "raise" args kwargs w).
Proof.
  intros World ask_human fns gs policy H.
  assert (HF : Forall2 (fun fn g =>
                 guard ask_human fn (effective_policy policy) "raise" = Normal g)
                 fns gs).
  { unfold guard_all in H. now apply comprehension_Forall2 in H. }
  split; [symmetry; eapply Forall2_length; exact HF |].
  split; [exact HF |].
  split; [intros i fn Hi; exact (Forall2_nth_error _ _ _ HF i fn Hi) |].
  split.
  - unfold guard_all. apply comprehension_returns. intros fn _.
    eexists. apply guard_returns; [now left | apply default_policy_asks].
  - intros -> i fn g Hi Hg.
    destruct (Forall2_nth_error _ _ _ HF i fn Hi) as (g' & Hg' & Hguard).
    rewrite Hg in Hg'. injection Hg' as <-.
    split; [apply default_policy_asks |].
    intros args kwargs w.
    apply guard_inv in Hguard as (_ & resolved & Hr & ->).
    rewrite default_policy_asks in Hr. injection Hr as <-.
    apply invoke_wrapper_ask.
Qed.

(** The tools of [TestGuardAll] under the mapping of
    [test_specific_pattern_wins], and [test_default_policy_is_ask]. *)
Lemma guard_all_guards_each_witness :
  (exists gs,
      guard_all (Probe.mock_ask true)
        [@TestHelpers.read_messages (Probe.world unit);
         TestHelpers.send_message; TestHelpers.delete_channel]
        (Some (PolicyDict [("delete_channel", "ask"); ("delete_*", "deny");
                           ("*", "allow")]))
      = Normal gs
      /\ length gs = 3
      /\ map __name__ gs = ["read_messages"; "send_message"; "delete_channel"])
  /\ (exists gs,
         guard_all (Probe.mock_ask false)
           [@TestHelpers.read_messages (Probe.world unit)] None
         = Normal gs
         /\ length gs = 1).
Proof.
  split.
  - eexists. split; [reflexivity |].
    split; [| reflexivity].
    exact (proj1 (guard_all_guards_each _ (Probe.mock_ask true)
                    [TestHelpers.read_messages; TestHelpers.send_message;
                     TestHelpers.delete_channel] _
                    (Some (PolicyDict [("delete_channel", "ask");
                                       ("delete_*", "deny"); ("*", "allow")]))
                    eq_refl)).
  - eexists. split; [reflexivity |].
    exact (proj1 (guard_all_guards_each _ (Probe.mock_ask false)
                    [TestHelpers.read_messages] _ None eq_refl)).
Defined.

(** C10. [guard_all] takes no denial mode: each wrapper in its result is
    the one [guard] builds with the mode [raise]. A call that the policy
    denies, or that the collaborator refuses, raises [AgentPrivDenied];
    a call that returns normally returns a result of the original
    operation, never the message of a denial in its place. *)
Theorem guard_all_denials_raise :
  forall (World : Type)
         (ask_human : string -> args_t -> kwargs_t -> M World bool)
         (fns gs : list (function World)) (policy : option policy_spec)
         (i : nat) (fn g : function World),
    guard_all ask_human fns policy = Normal gs ->
    nth_error fns i = Some fn ->
    nth_error gs i = Some g ->
    guard ask_human fn (effective_policy policy) "raise" = Normal g
    /\ forall args kwargs w,
        (_resolve_policy (__name__ fn) (effective_policy policy) = Normal "deny" ->
         invoke g args kwargs w
         = (Raised (AgentPrivDenied
                      ("Call to " ++ __name__ fn ++ "() denied by policy")), w))
        /\ (_resolve_policy (__name__ fn) (effective_policy policy) = Normal "ask" ->
            forall w1,
              ask_human (__name__ fn) args kwargs w = (Normal false, w1) ->
              invoke g args kwargs w
              = (Raised (AgentPrivDenied
                           ("Call to " ++ __name__ fn ++ "() denied by human")),
                 w1))
        /\ (forall v w',
               invoke g args kwargs w = (Normal v, w') ->
               exists w0, invoke fn args kwargs w0 = (Normal v, w')).
Proof.
  intros World ask_human fns gs policy i fn g H Hi Hgi.
  unfold guard_all in H. apply comprehension_Forall2 in H.
  destruct (Forall2_nth_error _ _ _ H i fn Hi) as (g' & Hg' & Hguard).
  rewrite Hgi in Hg'. injection Hg' as <-.
  change default_on_deny with "raise" in Hguard.
  fold (effective_policy policy) in Hguard.
  split; [exact Hguard |].
  intros args kwargs w.
  apply guard_inv in Hguard as (_ & resolved & Hr & ->).
  split; [| split].
  - intros Hdeny. rewrite Hdeny in Hr. injection Hr as <-.
    rewrite invoke_wrapper_deny. reflexivity.
  - intros Hask w1 Hrefuse. rewrite Hask in Hr. injection Hr as <-.
    rewrite invoke_wrapper_ask. unfold approval_gate. rewrite Hrefuse.
    reflexivity.
  - intros v w' Hret.
    destruct (resolve_policy_valid _ _ _ Hr) as [-> | [-> | ->]].
    + rewrite invoke_wrapper_allow in Hret. now exists w.
    + rewrite invoke_wrapper_deny in Hret. discriminate Hret.
    + rewrite invoke_wrapper_ask in Hret. unfold approval_gate in Hret.
      destruct (ask_human (__name__ fn) args kwargs w) as [[[|] | e] w1].
      * now exists w1.
      * discriminate Hret.
      * discriminate Hret.
Qed.

(** [test_deny_pattern] and [test_default_policy_is_ask]. *)
Lemma guard_all_denials_raise_witness :
  (exists g,
      nth_error
        (match guard_all (Probe.mock_ask true)
                 [@TestHelpers.read_messages (Probe.world unit);
                  TestHelpers.send_message; TestHelpers.delete_channel]
                 (Some (PolicyDict [("delete_*", "deny"); ("*", "allow")]))
         with
         | Normal gs => gs
         | Raised _ => []
         end) 2 = Some g
      /\ invoke g [VStr "general"] [] (tt, Probe.fresh)
         = (Raised (AgentPrivDenied "Call to delete_channel() denied by policy"),
            (tt, Probe.fresh)))
  /\ (exists g,
         nth_error
           (match guard_all (Probe.mock_ask false)
                    [@TestHelpers.read_messages (Probe.world unit)] None
            with
            | Normal gs => gs
            | Raised _ => []
            end) 0 = Some g
         /\ invoke g [] [] (tt, Probe.fresh)
            = (Raised (AgentPrivDenied "Call to read_messages() denied by human"),
               (tt, {| Probe.invocations := 0;
                       Probe.asked := [("read_messages", [], [])] |}))).
Proof.
  split.
  - eexists. split; [reflexivity |].
    exact (proj1 (proj2 (guard_all_denials_raise _ (Probe.mock_ask true)
                           [TestHelpers.read_messages; TestHelpers.send_message;
                            TestHelpers.delete_channel] _
                           (Some (PolicyDict [("delete_*", "deny"); ("*", "allow")]))
                           2 TestHelpers.delete_channel _
                           eq_refl eq_refl eq_refl)
                   [VStr "general"] [] (tt, Probe.fresh))
             eq_refl).
  - eexists. split; [reflexivity |].
    exact (proj1 (proj2 (proj2 (guard_all_denials_raise _ (Probe.mock_ask false)
                                  [TestHelpers.read_messages] _ None
                                  0 TestHelpers.read_messages _
                                  eq_refl eq_refl eq_refl)
                          [] [] (tt, Probe.fresh)))
             eq_refl _ eq_refl).
Defined.

(** * Further properties of the policy resolver *)

Lemma valid_spec_dec (policy : policy_spec) :
  {valid_spec policy} + {invalid_spec policy}.
Proof.
  destruct policy as [p | items]; simpl.
  - apply valid_policy_dec.
  - induction items as [| [pattern pol] items IH].
    + left. intros ? ? [].
    + destruct (valid_policy_dec pol) as [Hp | Hp].
      * destruct IH as [Hv | Hbad].
        -- left. intros p q [Heq | Hin]; [now injection Heq as <- <- |].
           now apply (Hv p).
        -- right. destruct Hbad as (p & q & Hin & Hq).
           exists p, q. split; [now right | assumption].
      * right. exists pattern, pol. split; [now left | assumption].
Qed.

Lemma invalid_not_valid (policy : policy_spec) :
  invalid_spec policy -> ~ valid_spec policy.
Proof.
  destruct policy as [p | items]; simpl.
  - auto.
  - intros (pattern & pol & Hin & Hbad) Hv. apply Hbad. now apply (Hv pattern).
Qed.

Lemma resolve_policy_raises name policy :
  invalid_spec policy ->
  exists msg, _resolve_policy name policy = Raised (ValueError msg).
Proof.
  destruct policy as [p | items]; cbn [invalid_spec _resolve_policy].
  - intros Hp. apply not_in_VALID_POLICIES in Hp. rewrite Hp. now eexists.
  - intros Hbad.
    destruct (first_invalid items Hbad)
      as (pre & pattern & pol & post & -> & Hpre & Hp).
    rewrite resolve_items_raises by assumption. now eexists.
Qed.

Lemma resolve_policy_returns name policy :
  valid_spec policy ->
  exists pol, _resolve_policy name policy = Normal pol.
Proof.
  destruct policy as [p | items]; cbn [valid_spec _resolve_policy].
  - intros Hp. apply in_VALID_POLICIES in Hp. rewrite Hp. now eexists.
  - intros Hv. now apply resolve_items_returns.
Qed.

Lemma resolve_returns_iff_valid_core name policy :
  (exists pol, _resolve_policy name policy = Normal pol) <-> valid_spec policy.
Proof.
  split; [| apply resolve_policy_returns].
  intros [pol Hpol]. destruct (valid_spec_dec policy) as [Hv | Hbad];
    [assumption |].
  destruct (resolve_policy_raises name policy Hbad) as [msg Hmsg]. congruence.
Qed.

(** X1. [_resolve_policy] returns exactly for the specifications whose
    values are all policies, and what it returns is then one of the three
    policies; for every other specification it raises [ValueError]. Whether
    it returns does not depend on the name. *)
Theorem resolve_returns_iff_valid :
  forall (name : string) (policy : policy_spec),
    ((exists pol, _resolve_policy name policy = Normal pol)
     <-> valid_spec policy)
    /\ ((exists msg, _resolve_policy name policy = Raised (ValueError msg))
        <-> invalid_spec policy)
    /\ (forall pol, _resolve_policy name policy = Normal pol -> valid_policy pol)
    /\ (forall other,
           (exists pol, _resolve_policy name policy = Normal pol)
           <-> (exists pol, _resolve_policy other policy = Normal pol)).
Proof.
  intros name policy.
  assert (Hret : forall n,
             (exists pol, _resolve_policy n policy = Normal pol)
             <-> valid_spec policy).
  { intros n. split; [| apply resolve_policy_returns].
    intros [pol Hpol]. destruct (valid_spec_dec policy) as [Hv | Hbad];
      [assumption |].
    destruct (resolve_policy_raises n policy Hbad) as [msg Hmsg]. congruence. }
  split; [apply Hret |]. split; [| split].
  - split; [| apply resolve_policy_raises].
    intros [msg Hmsg]. destruct (valid_spec_dec policy) as [Hv | Hbad];
      [| assumption].
    destruct (resolve_policy_returns name policy Hv) as [pol Hpol]. congruence.
  - intros pol. apply resolve_policy_valid.
  - intros other. now rewrite !Hret.
Qed.

(** X2. Order does not matter without ties: when one matching item has
    a strictly greater count of non-wildcard characters ([*] and [?] not
    counted) than every other matching item, [_resolve_policy] returns its
    policy for every reordering of the mapping. *)
Theorem resolve_ignores_order_without_ties :
  forall (name : string) (items items' : list (string * string))
         (pattern pol : string),
    all_valid items ->
    Permutation items items' ->
    In (pattern, pol) items ->
    Fnmatch.fnmatch name pattern = true ->
    (forall p q,
        In (p, q) items -> Fnmatch.fnmatch name p = true ->
        (p, q) = (pattern, pol)
        \/ non_wildcard_count p < non_wildcard_count pattern) ->
    _resolve_policy name (PolicyDict items) = Normal pol
    /\ _resolve_policy name (PolicyDict items') = Normal pol.
Proof.
  assert (Hone : forall name items pattern pol,
             all_valid items ->
             In (pattern, pol) items ->
             Fnmatch.fnmatch name pattern = true ->
             (forall p q,
                 In (p, q) items -> Fnmatch.fnmatch name p = true ->
                 (p, q) = (pattern, pol)
                 \/ non_wildcard_count p < non_wildcard_count pattern) ->
             _resolve_policy name (PolicyDict items) = Normal pol).
  { intros name items pattern pol Hv Hin Hm Hstrict.
    destruct (wins_exists name items) as (i & p & q & Hw);
      [now exists pattern, pol |].
    assert (Hsel := resolve_items_wins name items Hv i p q "deny" NegInf Hw I).
    destruct Hw as (Hnth & Hpm & Hmax).
    destruct (Hstrict p q (nth_error_In _ _ Hnth) Hpm) as [Heq | Hlt].
    - injection Heq as -> ->. exact Hsel.
    - apply In_nth_error in Hin as [j Hj].
      destruct (Hmax j pattern pol Hj Hm) as [Hle _].
      rewrite !specificity_of_counts_non_wildcards in Hle. lia. }
  intros name items items' pattern pol Hv Hperm Hin Hm Hstrict.
  split; [now apply (Hone name items pattern) |].
  apply (Hone name items' pattern).
  - intros p q Hin'. apply (Hv p). eapply Permutation_in; [| exact Hin'].
    now apply Permutation_sym.
  - eapply Permutation_in; eassumption.
  - assumption.
  - intros p q Hin' Hpm. apply Hstrict; [| assumption].
    eapply Permutation_in; [| exact Hin']. now apply Permutation_sym.
Qed.

(** A mapping in which the pattern with the most non-wildcard characters
    is the shorter one, in its two orders. *)
Lemma resolve_ignores_order_without_ties_witness :
  _resolve_policy "abc" (PolicyDict [("ab*", "deny"); ("*?*?*c", "allow")])
  = Normal "deny"
  /\ _resolve_policy "abc" (PolicyDict [("*?*?*c", "allow"); ("ab*", "deny")])
     = Normal "deny".
Proof.
  apply (resolve_ignores_order_without_ties "abc" _ _ "ab*" "deny").
  - valid_literal.
  - apply perm_swap.
  - left. reflexivity.
  - reflexivity.
  - intros p q [H | [H | []]] Hm; injection H as <- <-.
    + left. reflexivity.
    + right. cbv. lia.
Defined.

(** After a first match the trailing [*] changes nothing. *)
Lemma resolve_items_star_after_match name items p :
  all_valid items -> valid_policy p ->
  forall best_policy n,
    resolve_items name (items ++ [("*", p)]) best_policy (Len n)
    = resolve_items name items best_policy (Len n).
Proof.
  intros Hv Hp. induction items as [| [pattern pol] items IH];
    intros best_policy n.
  - cbn [app]. rewrite resolve_items_step by assumption.
    rewrite fnmatch_star. reflexivity.
  - apply all_valid_cons in Hv as [Hpol Hv].
    change (((pattern, pol) :: items) ++ [("*", p)])
      with ((pattern, pol) :: (items ++ [("*", p)])).
    rewrite !resolve_items_step by assumption.
    destruct (_ && _); apply IH; assumption.
Qed.

(** X3. A last item [*] is the default of the mapping: when another
    pattern matches the name the result is the one without that item, and
    when none does the result is the policy of [*] instead of [deny]. *)
Theorem resolve_star_last_is_default :
  forall (name : string) (items : list (string * string)) (p : string),
    all_valid items ->
    valid_policy p ->
    _resolve_policy name (PolicyDict (items ++ [("*", p)]))
    = if some_match name items
      then _resolve_policy name (PolicyDict items)
      else Normal p.
Proof.
  intros name items p Hv Hp. cbn [_resolve_policy]. unfold some_match.
  generalize "deny" as best_policy.
  induction items as [| [pattern pol] items IH]; intros best_policy.
  - cbn [app existsb]. rewrite resolve_items_step by assumption.
    rewrite fnmatch_star. reflexivity.
  - apply all_valid_cons in Hv as [Hpol Hv].
    change (((pattern, pol) :: items) ++ [("*", p)])
      with ((pattern, pol) :: (items ++ [("*", p)])).
    rewrite !resolve_items_step by assumption.
    cbn [existsb fst].
    destruct (Fnmatch.fnmatch name pattern); cbn [andb orb exceeds].
    + now apply resolve_items_star_after_match.
    + now apply IH.
Qed.

Lemma resolve_star_last_is_default_witness :
  _resolve_policy "read_messages" (PolicyDict ([("send_*", "ask")] ++ [("*", "allow")]))
  = Normal "allow"
  /\ _resolve_policy "send_message" (PolicyDict ([("send_*", "ask")] ++ [("*", "allow")]))
     = Normal "ask".
Proof.
  split.
  - exact (resolve_star_last_is_default "read_messages" [("send_*", "ask")] "allow"
             ltac:(valid_literal) ltac:(valid_literal)).
  - exact (resolve_star_last_is_default "send_message" [("send_*", "ask")] "allow"
             ltac:(valid_literal) ltac:(valid_literal)).
Defined.

(** ** Patterns without brackets *)

Lemma chars_inj (s s' : string) : PyStr.chars s = PyStr.chars s' -> s = s'.
Proof.
  unfold PyStr.chars. intros H.
  rewrite <- (string_of_list_ascii_of_string s),
          <- (string_of_list_ascii_of_string s').
  now rewrite H.
Qed.

Lemma chars_length (s : string) : length (PyStr.chars s) = String.length s.
Proof.
  unfold PyStr.chars. induction s as [| c s IH]; simpl; [reflexivity |].
  now rewrite IH.
Qed.

Lemma translate_bracket_free (l : list ascii) :
  existsb (Ascii.eqb "[") l = false ->
  Fnmatch.translate_from 0 l = map piece_of_char l.
Proof.
  induction l as [| c l IH]; intros H; [reflexivity |].
  cbn [existsb] in H. apply orb_false_iff in H as [Hc Hl].
  cbn [Fnmatch.translate_from map]. unfold piece_of_char at 1.
  rewrite Ascii.eqb_sym in Hc.
  destruct (Ascii.eqb c "*"); [now rewrite IH |].
  destruct (Ascii.eqb c "?"); [now rewrite IH |].
  rewrite Hc. now rewrite IH.
Qed.

Lemma contains_char_chars (c : ascii) (s : string) :
  PyStr.contains_char c s = existsb (Ascii.eqb c) (PyStr.chars s).
Proof.
  unfold PyStr.chars. induction s as [| a s IH]; simpl; [reflexivity |].
  now rewrite IH, (Ascii.eqb_sym a c).
Qed.

Lemma specificity_counts (p : string) :
  specificity_of p = length (filter counted_char (PyStr.chars p)).
Proof.
  unfold specificity_of, PyStr.chars, counted_char.
  induction p as [| c p IH]; [reflexivity |].
  cbn [PyStr.remove_char list_ascii_of_string filter].
  destruct (Ascii.eqb c "*"); cbn [negb andb]; [exact IH |].
  cbn [PyStr.remove_char].
  destruct (Ascii.eqb c "?"); cbn [negb]; [exact IH |].
  cbn [String.length length]. now rewrite IH.
Qed.

(** A match gives every piece but the stars a character of its own. *)
Lemma match_pieces_length (ps : list Fnmatch.piece) :
  forall s, Fnmatch.match_pieces ps s = true ->
            length (filter takes_one ps) <= length s.
Proof.
  induction ps as [| p ps IH]; intros s H.
  - simpl. lia.
  - assert (Hone : forall q, takes_one q = true ->
               (match s with
                | [] => false
                | c :: s' => Fnmatch.match_one q c && Fnmatch.match_pieces ps s'
                end) = true ->
               length (filter takes_one (q :: ps)) <= length s).
    { intros q Hq Hm. cbn [filter]. rewrite Hq.
      destruct s as [| c s']; [discriminate |].
      apply andb_true_iff in Hm as [_ Hm]. apply IH in Hm. simpl. lia. }
    destruct p; try (apply Hone; [reflexivity | exact H]).
    cbn [filter takes_one]. cbn [Fnmatch.match_pieces] in H. clear Hone.
    induction s as [| c s' IHs]; simpl in H;
      apply orb_true_iff in H as [H | H].
    + now apply IH.
    + discriminate H.
    + now apply IH.
    + apply IHs in H. simpl. lia.
Qed.

Lemma counted_le_takes_one (l : list ascii) :
  length (filter counted_char l)
  <= length (filter takes_one (map piece_of_char l)).
Proof.
  induction l as [| c l IH]; [simpl; lia |].
  cbn [filter map]. unfold counted_char at 1, piece_of_char at 1.
  destruct (Ascii.eqb c "*"); cbn [negb andb takes_one]; [exact IH |].
  destruct (Ascii.eqb c "?"); cbn [negb takes_one]; simpl; lia.
Qed.

Lemma specificity_le_name (name p : string) :
  bracket_free p -> Fnmatch.fnmatch name p = true ->
  specificity_of p <= String.length name.
Proof.
  unfold bracket_free, Fnmatch.fnmatch, Fnmatch.translate. intros Hb Hm.
  rewrite contains_char_chars in Hb.
  rewrite translate_bracket_free in Hm by assumption.
  apply match_pieces_length in Hm.
  rewrite specificity_counts, <- chars_length.
  eapply Nat.le_trans; [apply counted_le_takes_one | exact Hm].
Qed.

(** ** Patterns without glob syntax *)

Lemma plain_is_literal (l : list ascii) :
  forallb plain_char l = true -> map piece_of_char l = map Fnmatch.Lit l.
Proof.
  induction l as [| c l IH]; intros H; [reflexivity |].
  cbn [forallb] in H. apply andb_true_iff in H as [Hc Hl].
  cbn [map]. rewrite (IH Hl). unfold piece_of_char, plain_char in *.
  destruct (Ascii.eqb c "*"); [discriminate |].
  destruct (Ascii.eqb c "?"); [discriminate | reflexivity].
Qed.

Lemma plain_no_bracket (l : list ascii) :
  forallb plain_char l = true -> existsb (Ascii.eqb "[") l = false.
Proof.
  induction l as [| c l IH]; intros H; [reflexivity |].
  cbn [forallb] in H. apply andb_true_iff in H as [Hc Hl].
  cbn [existsb]. rewrite (IH Hl), orb_false_r. unfold plain_char in Hc.
  rewrite (Ascii.eqb_sym "[" c).
  destruct (Ascii.eqb c "["); [| reflexivity].
  rewrite !orb_true_r in Hc. discriminate.
Qed.

Lemma plain_all_counted (l : list ascii) :
  forallb plain_char l = true -> filter counted_char l = l.
Proof.
  induction l as [| c l IH]; intros H; [reflexivity |].
  cbn [forallb] in H. apply andb_true_iff in H as [Hc Hl].
  cbn [filter]. rewrite (IH Hl). unfold plain_char, counted_char in *.
  destruct (Ascii.eqb c "*"); [discriminate |].
  destruct (Ascii.eqb c "?"); [discriminate | reflexivity].
Qed.

Lemma match_literals (l : list ascii) :
  forall s, Fnmatch.match_pieces (map Fnmatch.Lit l) s = true <-> s = l.
Proof.
  induction l as [| a l IH]; intros s; cbn [map Fnmatch.match_pieces].
  - destruct s; split; intros H; congruence.
  - destruct s as [| c s]; [split; intros H; discriminate |].
    cbn [Fnmatch.match_one]. rewrite andb_true_iff, IH, Ascii.eqb_eq.
    split; [intros [-> ->]; reflexivity | intros H; injection H as -> ->; auto].
Qed.

(** A pattern without glob syntax matches itself and nothing else. *)
Lemma fnmatch_literal (name p : string) :
  literal_pattern p -> (Fnmatch.fnmatch name p = true <-> name = p).
Proof.
  unfold literal_pattern, Fnmatch.fnmatch, Fnmatch.translate. intros Hp.
  rewrite translate_bracket_free by now apply plain_no_bracket.
  rewrite plain_is_literal by assumption. rewrite match_literals.
  split; [apply chars_inj | now intros ->].
Qed.

Lemma specificity_literal (p : string) :
  literal_pattern p -> specificity_of p = String.length p.
Proof.
  intros Hp. rewrite specificity_counts, plain_all_counted by assumption.
  apply chars_length.
Qed.

Lemma literal_bracket_free (p : string) : literal_pattern p -> bracket_free p.
Proof.
  unfold literal_pattern, bracket_free. intros Hp.
  rewrite contains_char_chars. now apply plain_no_bracket.
Qed.

(** The loop over a mapping of plain names, before any match. *)
Lemma resolve_items_literal name items :
  all_valid items ->
  (forall p q, In (p, q) items -> literal_pattern p) ->
  forall best_policy,
    resolve_items name items best_policy NegInf
    = Normal match find (fun kv => fst kv =? name) items with
             | Some kv => snd kv
             | None => best_policy
             end.
Proof.
  induction items as [| [pattern pol] items IH]; intros Hv Hlit best_policy.
  - reflexivity.
  - apply all_valid_cons in Hv as [Hpol Hv].
    assert (Hp : literal_pattern pattern) by (apply (Hlit pattern pol); now left).
    assert (Hrest : forall p q, In (p, q) items -> literal_pattern p)
      by (intros p q Hin; apply (Hlit p q); now right).
    rewrite resolve_items_step by assumption. cbn [find fst snd].
    destruct (String.eqb_spec pattern name) as [-> | Hne].
    + rewrite (proj2 (fnmatch_literal name name Hp) eq_refl). cbn [andb exceeds].
      apply resolve_items_keeps; [assumption |].
      intros p q Hin Hm.
      apply (fnmatch_literal name p (Hrest p q Hin)) in Hm. subst p. lia.
    + destruct (Fnmatch.fnmatch name pattern) eqn:Hm.
      * apply (fnmatch_literal name pattern Hp) in Hm. congruence.
      * cbn [andb]. now apply IH.
Qed.

(** X4. A mapping whose patterns hold no glob syntax is a lookup table
    with the default [deny]: [_resolve_policy] returns the policy stored
    under the name itself, and [deny] for every name that is not a key. *)
Theorem resolve_literal_mapping_is_lookup :
  forall (name : string) (items : list (string * string)),
    all_valid items ->
    (forall p q, In (p, q) items -> literal_pattern p) ->
    _resolve_policy name (PolicyDict items)
    = Normal (lookup_or_deny name items)
    /\ ((forall q, ~ In (name, q) items) ->
        _resolve_policy name (PolicyDict items) = Normal "deny").
Proof.
  intros name items Hv Hlit.
  assert (Heq : _resolve_policy name (PolicyDict items)
                = Normal (lookup_or_deny name items))
    by (now apply resolve_items_literal).
  split; [exact Heq |].
  intros Hno. rewrite Heq. unfold lookup_or_deny.
  destruct (find (fun kv => fst kv =? name) items) as [[p q] |] eqn:Hf;
    [| reflexivity].
  apply find_some in Hf as [Hin Hk]. cbn [fst] in Hk.
  apply String.eqb_eq in Hk. subst p. now destruct (Hno q).
Qed.

Lemma resolve_literal_mapping_is_lookup_witness :
  _resolve_policy "send_message"
    (PolicyDict [("read_messages", "allow"); ("send_message", "ask")])
  = Normal "ask"
  /\ _resolve_policy "send_messages"
       (PolicyDict [("read_messages", "allow"); ("send_message", "ask")])
     = Normal "deny".
Proof.
  assert (Hv : all_valid [("read_messages", "allow"); ("send_message", "ask")])
    by valid_literal.
  assert (Hlit : forall p q,
             In (p, q) [("read_messages", "allow"); ("send_message", "ask")] ->
             literal_pattern p).
  { intros p q [H | [H | []]]; injection H as <- <-; reflexivity. }
  split.
  - exact (proj1 (resolve_literal_mapping_is_lookup "send_message" _ Hv Hlit)).
  - exact (proj1 (resolve_literal_mapping_is_lookup "send_messages" _ Hv Hlit)).
Defined.

(** X5. Among patterns made of characters, stars and question marks, no
    matching pattern has more non-wildcard characters than the name has
    characters, so an item whose pattern is the name itself is selected
    unless an earlier matching item has as many. A bracket expression is
    not held to that bound (its brackets and members all count) and can
    outrank the name. *)
Theorem exact_entry_wins_over_wildcards :
  forall (name : string) (items : list (string * string))
         (i : nat) (pol : string),
    all_valid items ->
    literal_pattern name ->
    (forall p q, In (p, q) items -> bracket_free p) ->
    nth_error items i = Some (name, pol) ->
    (forall j p q,
        j < i -> nth_error items j = Some (p, q) ->
        Fnmatch.fnmatch name p = true ->
        specificity_of p < String.length name) ->
    _resolve_policy name (PolicyDict items) = Normal pol
    /\ (forall p q,
           In (p, q) items -> Fnmatch.fnmatch name p = true ->
           specificity_of p <= String.length name)
    /\ _resolve_policy "delete_channel"
         (PolicyDict [("delete_channel", "allow"); ("delete_channe[l]", "deny")])
       = Normal "deny".
Proof.
  intros name items i pol Hv Hname Hfree Hnth Hbefore.
  assert (Hbound : forall p q,
             In (p, q) items -> Fnmatch.fnmatch name p = true ->
             specificity_of p <= String.length name).
  { intros p q Hin Hm. apply specificity_le_name; [| assumption].
    now apply (Hfree p q). }
  split; [| split; [exact Hbound | reflexivity]].
  cbn [_resolve_policy].
  apply (resolve_items_wins name items Hv i name pol); [| exact I].
  split; [assumption |].
  split; [now apply fnmatch_literal |].
  intros j p q Hj Hm. rewrite (specificity_literal name Hname).
  split.
  - apply (Hbound p q); [now apply nth_error_In in Hj | assumption].
  - intros Hlt. now apply (Hbefore j p q).
Qed.

Lemma exact_entry_wins_over_wildcards_witness :
  _resolve_policy "delete_channel"
    (PolicyDict [("delete_*", "deny"); ("delete_channel", "allow");
                 ("delete_channel*", "ask"); ("??????_channel", "deny")])
  = Normal "allow".
Proof.
  refine (proj1 (exact_entry_wins_over_wildcards "delete_channel"
                   [("delete_*", "deny"); ("delete_channel", "allow");
                    ("delete_channel*", "ask"); ("??????_channel", "deny")]
                   1 "allow" _ _ _ eq_refl _)).
  - valid_literal.
  - reflexivity.
  - intros p q [H | [H | [H | [H | []]]]]; injection H as <- <-; reflexivity.
  - intros j p q Hlt Hj Hm. destruct j as [| j]; [| lia].
    injection Hj as <- <-. cbv. lia.
Defined.

(** * Further properties of the call interceptor *)


(** X7. [guard_all] validates the specification only through the
    operations it wraps: on an empty list it returns the empty list
    whatever the specification holds, and on a non-empty list it returns
    exactly when every value of the specification in use is a policy,
    raising otherwise the error of resolving the first operation's name. *)
Theorem guard_all_returns_iff_valid :
  forall (World : Type)
         (ask_human : string -> args_t -> kwargs_t -> M World bool)
         (policy : option policy_spec),
    guard_all ask_human [] policy = Normal []
    /\ (forall fn fns,
           (exists gs, guard_all ask_human (fn :: fns) policy = Normal gs)
           <-> valid_spec (effective_policy policy))
    /\ (forall fn fns e,
           _resolve_policy (__name__ fn) (effective_policy policy) = Raised e ->
           guard_all ask_human (fn :: fns) policy = Raised e).
Proof.
  intros World ask_human policy.
  split; [reflexivity |]. split.
  - intros fn fns. split.
    + intros [gs Hgs]. unfold guard_all in Hgs.
      apply comprehension_Forall2 in Hgs. inversion Hgs as [| ? g ? ? Hg _]; subst.
      apply guard_inv in Hg as (_ & resolved & Hr & _).
      apply (proj1 (resolve_returns_iff_valid_core (__name__ fn) _)).
      now exists resolved.
    + intros Hv. unfold guard_all. apply comprehension_returns.
      intros f _.
      destruct (resolve_policy_returns (__name__ f) _ Hv) as [pol Hpol].
      exists (wrapper_of ask_human f pol "raise").
      apply guard_returns; [now left | exact Hpol].
  - intros fn fns e He. unfold guard_all, guard. cbn [comprehension].
    fold (effective_policy policy). cbn. rewrite He. reflexivity.
Qed.

(** X8. One call of a wrapper runs the original at most once and
    consults the collaborator at most once, whatever the policy: under
    [allow] the original runs once and the collaborator is not consulted,
    under [deny] neither happens, and under [ask] the collaborator is
    consulted once, with the name and the arguments, and the original runs
    once exactly when the answer is true. *)
Theorem wrapper_runs_each_at_most_once :
  forall (W : Type) (answer : bool) (name : string) (doc : option string)
         (is_async : bool) (body : args_t -> kwargs_t -> M W value)
         (policy : policy_spec) (on_deny : string)
         (g : function (Probe.world W)),
    guard (Probe.mock_ask answer) (tracked_function name doc is_async body)
      policy on_deny = Normal g ->
    forall (args : args_t) (kwargs : kwargs_t) (w : W) (p : Probe.probe),
    exists resolved r w' p',
      _resolve_policy name policy = Normal resolved
      /\ invoke g args kwargs (w, p) = (r, (w', p'))
      /\ Probe.invocations p' <= S (Probe.invocations p)
      /\ length (Probe.asked p') <= S (length (Probe.asked p))
      /\ (resolved = "allow" ->
          Probe.invocations p' = S (Probe.invocations p)
          /\ Probe.asked p' = Probe.asked p
          /\ (r, w') = body args kwargs w)
      /\ (resolved = "deny" -> p' = p /\ w' = w)
      /\ (resolved = "ask" ->
          Probe.asked p' = Probe.asked p ++ [(name, args, kwargs)]
          /\ Probe.invocations p'
             = (if answer then S (Probe.invocations p) else Probe.invocations p)
          /\ (if answer then (r, w') = body args kwargs w else w' = w)).
Proof.
  intros W answer name doc is_async body policy on_deny g Hg args kwargs w p.
  apply guard_inv in Hg as (_ & resolved & Hr & ->).
  cbn [tracked_function __name__] in Hr.
  exists resolved.
  assert (Hfn : forall w0 p0,
             invoke (tracked_function name doc is_async body) args kwargs (w0, p0)
             = (fst (body args kwargs w0),
                (snd (body args kwargs w0),
                 {| Probe.invocations := S (Probe.invocations p0);
                    Probe.asked := Probe.asked p0 |}))).
  { intros w0 p0. destruct is_async.
    - erewrite invoke_AsyncDef by reflexivity. unfold Probe.tracked.
      cbn [fst snd]. now destruct (body args kwargs w0).
    - erewrite invoke_Def by reflexivity. unfold Probe.tracked.
      cbn [fst snd]. now destruct (body args kwargs w0). }
  destruct (resolve_policy_valid _ _ _ Hr) as [-> | [-> | ->]].
  - rewrite invoke_wrapper_allow, Hfn.
    do 3 eexists. split; [exact Hr |]. split; [reflexivity |].
    cbn [Probe.invocations Probe.asked].
    split; [lia |]. split; [lia |]. split; [| split; intros H; discriminate H].
    intros _. split; [reflexivity |]. split; [reflexivity |].
    now destruct (body args kwargs w).
  - rewrite invoke_wrapper_deny.
    do 3 eexists. split; [exact Hr |]. split; [reflexivity |].
    split; [lia |]. split; [lia |].
    split; [intros H; discriminate H |]. split; [| intros H; discriminate H].
    intros _. split; reflexivity.
  - rewrite invoke_wrapper_ask. unfold approval_gate, Probe.mock_ask.
    cbn [tracked_function __name__ fst snd].
    destruct answer.
    + rewrite Hfn.
      do 3 eexists. split; [exact Hr |]. split; [reflexivity |].
      cbn [Probe.invocations Probe.asked]. rewrite length_app. cbn [length].
      split; [lia |]. split; [lia |].
      split; [intros H; discriminate H |]. split; [intros H; discriminate H |].
      intros _. split; [reflexivity |]. split; [reflexivity |].
      now destruct (body args kwargs w).
    + do 3 eexists. split; [exact Hr |]. split; [reflexivity |].
      cbn [Probe.invocations Probe.asked]. rewrite length_app. cbn [length].
      split; [lia |]. split; [lia |].
      split; [intros H; discriminate H |]. split; [intros H; discriminate H |].
      intros _. split; [reflexivity |]. split; reflexivity.
Qed.

Lemma wrapper_runs_each_at_most_once_witness :
  exists resolved r w' p',
    _resolve_policy "send_message" (PolicyDict [("send_*", "ask"); ("*", "allow")])
    = Normal resolved
    /\ invoke
         (wrapper_of (Probe.mock_ask true)
            (tracked_function "send_message" None true
               (fun _ _ => ret (VStr "sent")))
            "ask" "return")
         [VStr "general"] [] (tt, Probe.fresh)
       = (r, (w', p'))
    /\ Probe.invocations p' <= 1
    /\ length (Probe.asked p') <= 1.
Proof.
  destruct (wrapper_runs_each_at_most_once unit true "send_message" None true
              (fun _ _ => ret (VStr "sent"))
              (PolicyDict [("send_*", "ask"); ("*", "allow")]) "return"
              _ eq_refl [VStr "general"] [] tt Probe.fresh)
    as (resolved & r & w' & p' & Hr & Hi & Hn & Ha & _).
  exists resolved, r, w', p'. repeat split; assumption.
Defined.

(** X9. In the mode [return] the gate raises nothing of its own: an
    exception that leaves a wrapper was raised by the original operation
    or by the collaborator. *)
Theorem return_mode_raises_nothing_itself :
  forall (World : Type)
         (ask_human : string -> args_t -> kwargs_t -> M World bool)
         (fn g : function World) (policy : policy_spec)
         (args : args_t) (kwargs : kwargs_t) (w w' : World) (e : exn),
    guard ask_human fn policy "return" = Normal g ->
    invoke g args kwargs w = (Raised e, w') ->
    (exists w0, invoke fn args kwargs w0 = (Raised e, w'))
    \/ ask_human (__name__ fn) args kwargs w = (Raised e, w').
Proof.
  intros World ask_human fn g policy args kwargs w w' e Hg Hraise.
  apply guard_inv in Hg as (_ & resolved & Hr & ->).
  destruct (resolve_policy_valid _ _ _ Hr) as [-> | [-> | ->]].
  - rewrite invoke_wrapper_allow in Hraise. left. now exists w.
  - rewrite invoke_wrapper_deny in Hraise. discriminate Hraise.
  - rewrite invoke_wrapper_ask in Hraise. unfold approval_gate in Hraise.
    destruct (ask_human (__name__ fn) args kwargs w) as [[[|] | e1] w1].
    + left. now exists w1.
    + discriminate Hraise.
    + right. now injection Hraise as -> ->.
Qed.

Lemma return_mode_raises_nothing_itself_witness :
  (exists w0,
      invoke unreachable_host [] [] w0
      = (Raised (OtherError "ConnectionError" "down"),
         (tt, {| Probe.invocations := 1;
                 Probe.asked := [("unreachable_host", [], [])] |})))
  \/ Probe.mock_ask true "unreachable_host" [] [] (tt, Probe.fresh)
     = (Raised (OtherError "ConnectionError" "down"),
        (tt, {| Probe.invocations := 1;
                Probe.asked := [("unreachable_host", [], [])] |})).
Proof.
  exact (return_mode_raises_nothing_itself _ (Probe.mock_ask true)
           unreachable_host _ (PolicyStr "ask") [] [] (tt, Probe.fresh) _ _
           eq_refl eq_refl).
Defined.

(** * Properties of the default collaborator *)

Local Open Scope string_scope.

Lemma str_app_assoc (a b c : string) : (a ++ b) ++ c = a ++ (b ++ c).
Proof.
  induction a as [| x a IH]; simpl; [reflexivity | now rewrite IH].
Qed.

Lemma str_app_nil_r (a : string) : a ++ "" = a.
Proof.
  induction a as [| x a IH]; simpl; [reflexivity | now rewrite IH].
Qed.

Lemma chars_app (a b : string) :
  PyStr.chars (a ++ b) = (PyStr.chars a ++ PyStr.chars b)%list.
Proof.
  unfold PyStr.chars. induction a as [| x a IH]; simpl;
    [reflexivity | now rewrite IH].
Qed.

Lemma of_chars_app (l l' : list ascii) :
  PyStr.of_chars (l ++ l')%list = PyStr.of_chars l ++ PyStr.of_chars l'.
Proof.
  unfold PyStr.of_chars. induction l as [| x l IH]; simpl;
    [reflexivity | now rewrite IH].
Qed.

Lemma chars_of_chars (l : list ascii) : PyStr.chars (PyStr.of_chars l) = l.
Proof. apply list_ascii_of_string_of_list_ascii. Qed.

Lemma of_chars_chars (s : string) : PyStr.of_chars (PyStr.chars s) = s.
Proof. apply string_of_list_ascii_of_string. Qed.

Lemma reverse_app (a b : string) :
  Prompt.reverse (a ++ b) = Prompt.reverse b ++ Prompt.reverse a.
Proof.
  unfold Prompt.reverse. now rewrite chars_app, rev_app_distr, of_chars_app.
Qed.

Lemma reverse_involutive (s : string) : Prompt.reverse (Prompt.reverse s) = s.
Proof.
  unfold Prompt.reverse. now rewrite chars_of_chars, rev_involutive, of_chars_chars.
Qed.

Lemma blank_reverse (s : string) : blank s -> blank (Prompt.reverse s).
Proof.
  unfold blank, Prompt.reverse. rewrite chars_of_chars, !forallb_forall.
  intros H c Hc. apply H. now apply in_rev.
Qed.

Lemma lstrip_blank_prefix (pre : string) (c : ascii) (t : string) :
  blank pre -> Prompt.isspace c = false ->
  Prompt.lstrip (pre ++ String c t) = String c t.
Proof.
  unfold blank, PyStr.chars. intros Hpre Hc.
  induction pre as [| x pre IH]; simpl.
  - now rewrite Hc.
  - simpl in Hpre. apply andb_true_iff in Hpre as [Hx Hpre].
    rewrite Hx. now apply IH.
Qed.

Lemma lstrip_blank (s : string) : blank s -> Prompt.lstrip s = "".
Proof.
  unfold blank, PyStr.chars. induction s as [| x s IH]; simpl; [reflexivity |].
  intros H. apply andb_true_iff in H as [Hx Hs]. rewrite Hx. now apply IH.
Qed.

(** What [lstrip] removes is white space, and what it leaves does not
    start with any. *)
Lemma lstrip_split (s : string) :
  exists pre,
    s = pre ++ Prompt.lstrip s /\ blank pre
    /\ (Prompt.lstrip s = ""
        \/ exists c t, Prompt.lstrip s = String c t /\ Prompt.isspace c = false).
Proof.
  induction s as [| x s IH].
  - exists "". repeat split. now left.
  - simpl. destruct (Prompt.isspace x) eqn:Hx.
    + destruct IH as (pre & Heq & Hpre & Hrest).
      exists (String x pre). split; [simpl; now rewrite <- Heq |].
      split; [| assumption].
      unfold blank, PyStr.chars in *. simpl. now rewrite Hx.
    + exists "". split; [reflexivity |]. split; [reflexivity |].
      right. now exists x, s.
Qed.

(** [strip] leaves one character exactly when the text is that character
    between two stretches of white space. *)
Lemma strip_single (line : string) (c : ascii) :
  Prompt.strip line = String c ""
  <-> Prompt.isspace c = false
      /\ exists pre post,
           line = pre ++ String c post /\ blank pre /\ blank post.
Proof.
  unfold Prompt.strip. split.
  - intros H.
    apply (f_equal Prompt.reverse) in H. rewrite reverse_involutive in H.
    change (Prompt.reverse (String c "")) with (String c "") in H.
    destruct (lstrip_split (Prompt.reverse (Prompt.lstrip line)))
      as (pre2 & Heq2 & Hpre2 & Hrest2).
    rewrite H in Heq2, Hrest2.
    destruct Hrest2 as [Hnil | (c' & t & Hc' & Hsp)]; [discriminate Hnil |].
    injection Hc' as <- <-. split; [assumption |].
    destruct (lstrip_split line) as (pre & Heq & Hpre & _).
    apply (f_equal Prompt.reverse) in Heq2.
    rewrite reverse_involutive, reverse_app in Heq2.
    change (Prompt.reverse (String c "")) with (String c "") in Heq2.
    exists pre, (Prompt.reverse pre2).
    split; [| split; [assumption | now apply blank_reverse]].
    rewrite Heq at 1. now rewrite Heq2.
  - intros (Hc & pre & post & -> & Hpre & Hpost).
    rewrite lstrip_blank_prefix by assumption.
    change (String c post) with (String c "" ++ post).
    rewrite reverse_app.
    change (Prompt.reverse (String c "")) with (String c "").
    rewrite lstrip_blank_prefix by (try apply blank_reverse; assumption).
    reflexivity.
Qed.

Lemma lower_char_y (c : ascii) :
  Prompt.lower_char c = "y"%char <-> c = "y"%char \/ c = "Y"%char.
Proof.
  split.
  - destruct c as [[] [] [] [] [] [] [] []]; vm_compute; intros H;
      first [discriminate H | now left | now right].
  - intros [-> | ->]; reflexivity.
Qed.

Lemma lower_is_y (s : string) :
  Prompt.lower s = "y"
  <-> exists c, s = String c "" /\ (c = "y"%char \/ c = "Y"%char).
Proof.
  split.
  - destruct s as [| c [| d s]]; simpl; intros H; try discriminate H.
    injection H as H. exists c. split; [reflexivity | now apply lower_char_y].
  - intros (c & -> & Hc). simpl. now rewrite (proj2 (lower_char_y c) Hc).
Qed.

Lemma answer_is_yes (line : string) :
  (Prompt.lower (Prompt.strip line) =? "y") = true <-> says_yes line.
Proof.
  rewrite String.eqb_eq, lower_is_y. unfold says_yes. split.
  - intros (c & Hs & Hc). apply strip_single in Hs as (_ & pre & post & H).
    now exists pre, c, post.
  - intros (pre & c & post & Hl & Hc & Hpre & Hpost).
    exists c. split; [| assumption]. apply strip_single.
    split; [destruct Hc as [-> | ->]; reflexivity |].
    now exists pre, post.
Qed.

Lemma ask_human_reads (name : string) (args : args_t) (kwargs : kwargs_t)
  (lines : list string) (out : string) :
  Prompt.ask_human name args kwargs
    {| Prompt.stdin := lines; Prompt.stdout := out |}
  = match lines with
    | [] => (Raised (OtherError "EOFError" "EOF when reading a line"),
             {| Prompt.stdin := [];
                Prompt.stdout := out ++ prompt_text name args kwargs |})
    | line :: rest =>
        (Normal (Prompt.lower (Prompt.strip line) =? "y"),
         {| Prompt.stdin := rest;
            Prompt.stdout := out ++ prompt_text name args kwargs |})
    end.
Proof.
  assert (Hout : forall sig,
    (out ++ (String "010" "agentpriv: " ++ name ++ "(" ++ sig ++ ")")
         ++ String "010" "") ++ "Allow this call? [y/n]: "
    = out ++ String "010" "agentpriv: " ++ name ++ "(" ++ sig ++ ")"
          ++ String "010" "Allow this call? [y/n]: ").
  { intros sig. rewrite !str_app_assoc. reflexivity. }
  unfold Prompt.ask_human, Prompt.print, Prompt.input, bind, ret, prompt_text.
  cbn [Prompt.stdin Prompt.stdout].
  destruct lines as [| line rest]; rewrite Hout; reflexivity.
Qed.

(** X10. [ask_human] prints the call and the question, reads one line and
    leaves the lines after it unread. It answers true exactly when that
    line is the letter [y], in either case, between optional white space;
    every other line, the empty one and [yes] included, is a refusal. *)
Theorem ask_human_approves_only_y :
  forall (name : string) (args : args_t) (kwargs : kwargs_t)
         (line : string) (rest : list string) (out : string),
  exists approved,
    Prompt.ask_human name args kwargs
      {| Prompt.stdin := line :: rest; Prompt.stdout := out |}
    = (Normal approved,
       {| Prompt.stdin := rest;
          Prompt.stdout := out ++ prompt_text name args kwargs |})
    /\ (approved = true <-> says_yes line)
    /\ ~ says_yes "" /\ ~ says_yes "yes".
Proof.
  intros name args kwargs line rest out.
  exists (Prompt.lower (Prompt.strip line) =? "y").
  split; [apply ask_human_reads |].
  split; [apply answer_is_yes |].
  split; intros H; apply answer_is_yes in H; discriminate H.
Qed.

(** X11. When the input is at its end, [ask_human] raises [EOFError]
    after printing the question, and a call guarded under [ask] ends with
    that error in either denial mode: the original does not run and no
    denial is reported. *)
Theorem ask_at_end_of_input_raises :
  forall (fn g : function Prompt.console) (policy : policy_spec)
         (on_deny : string) (args : args_t) (kwargs : kwargs_t) (out : string),
    guard Prompt.ask_human fn policy on_deny = Normal g ->
    _resolve_policy (__name__ fn) policy = Normal "ask" ->
    Prompt.ask_human (__name__ fn) args kwargs
      {| Prompt.stdin := []; Prompt.stdout := out |}
    = (Raised (OtherError "EOFError" "EOF when reading a line"),
       {| Prompt.stdin := [];
          Prompt.stdout := out ++ prompt_text (__name__ fn) args kwargs |})
    /\ invoke g args kwargs {| Prompt.stdin := []; Prompt.stdout := out |}
       = (Raised (OtherError "EOFError" "EOF when reading a line"),
          {| Prompt.stdin := [];
             Prompt.stdout := out ++ prompt_text (__name__ fn) args kwargs |}).
Proof.
  intros fn g policy on_deny args kwargs out Hg Hr.
  apply guard_inv in Hg as (_ & resolved & Hr' & ->).
  rewrite Hr in Hr'. injection Hr' as <-.
  split; [apply ask_human_reads |].
  rewrite invoke_wrapper_ask. unfold approval_gate.
  rewrite ask_human_reads. reflexivity.
Qed.

Lemma ask_at_end_of_input_raises_witness :
  exists g,
    guard Prompt.ask_human TestHelpers.read_messages (PolicyDict [("*", "ask")])
      "return" = Normal g
    /\ invoke g [] [] {| Prompt.stdin := []; Prompt.stdout := "" |}
       = (Raised (OtherError "EOFError" "EOF when reading a line"),
          {| Prompt.stdin := [];
             Prompt.stdout :=
               String "010" "agentpriv: read_messages()"
               ++ String "010" "Allow this call? [y/n]: " |}).
Proof.
  eexists. split; [reflexivity |].
  exact (proj2 (ask_at_end_of_input_raises TestHelpers.read_messages _
                  (PolicyDict [("*", "ask")]) "return" [] [] ""
                  eq_refl eq_refl)).
Defined.

(** * Composition *)

(** X12. A wrapper can be guarded again. It carries the name of the
    original, so the same specification resolves to the same policy, and
    the two gates run one after the other: under [allow] the call is the
    original's, under [deny] it is denied by the outer gate in the outer
    mode, and under [ask] the collaborator is consulted by the outer gate
    and, if it approves, a second time by the inner one. *)
Theorem guard_again_gates_again :
  forall (World : Type)
         (ask_human : string -> args_t -> kwargs_t -> M World bool)
         (fn g : function World) (policy : policy_spec)
         (on_deny on_deny' : string),
    guard ask_human fn policy on_deny = Normal g ->
    valid_on_deny on_deny' ->
    exists g2 resolved,
      guard ask_human g policy on_deny' = Normal g2
      /\ _resolve_policy (__name__ fn) policy = Normal resolved
      /\ forall args kwargs w,
          (resolved = "allow" ->
           invoke g2 args kwargs w = invoke fn args kwargs w)
          /\ (resolved = "deny" ->
              invoke g2 args kwargs w
              = (denial_outcome on_deny' (__name__ fn) "policy", w))
          /\ (resolved = "ask" ->
              invoke g2 args kwargs w
              = match ask_human (__name__ fn) args kwargs w with
                | (Normal true, w1) =>
                    approval_gate ask_human fn on_deny args kwargs w1
                | (Normal false, w1) =>
                    (denial_outcome on_deny' (__name__ fn) "human", w1)
                | (Raised e, w1) => (Raised e, w1)
                end).
Proof.
  intros World ask_human fn g policy on_deny on_deny' Hg Hd'.
  apply guard_inv in Hg as (_ & resolved & Hr & ->).
  exists (wrapper_of ask_human (wrapper_of ask_human fn resolved on_deny)
            resolved on_deny'), resolved.
  split; [apply guard_returns; assumption |].
  split; [exact Hr |].
  intros args kwargs w. split; [| split]; intros ->.
  - now rewrite !invoke_wrapper_allow.
  - now rewrite invoke_wrapper_deny.
  - rewrite invoke_wrapper_ask. unfold approval_gate at 1.
    cbn [wrapper_of wraps __name__].
    destruct (ask_human (__name__ fn) args kwargs w) as [[[|] | e] w1];
      try reflexivity.
    apply invoke_wrapper_ask.
Qed.

(** A tracked operation guarded twice under [ask] and approved: two
    recorded consultations, one run. *)
Lemma guard_again_gates_again_witness :
  exists g2 resolved,
    guard (Probe.mock_ask true)
      (wrapper_of (Probe.mock_ask true) TestHelpers.tracked "ask" "raise")
      (PolicyStr "ask") "return" = Normal g2
    /\ _resolve_policy "tracked" (PolicyStr "ask") = Normal resolved
    /\ invoke g2 [] [] (tt, Probe.fresh)
       = (Normal VNone,
          (tt, {| Probe.invocations := 1;
                  Probe.asked := [("tracked", [], []); ("tracked", [], [])] |})).
Proof.
  destruct (guard_again_gates_again _ (Probe.mock_ask true) TestHelpers.tracked
              _ (PolicyStr "ask") "raise" "return" eq_refl (or_intror eq_refl))
    as (g2 & resolved & Hg2 & Hr & Hcalls).
  exists g2, resolved. split; [exact Hg2 |]. split; [exact Hr |].
  injection Hr as <-.
  exact (proj2 (proj2 (Hcalls [] [] (tt, Probe.fresh))) eq_refl).
Defined.

Lemma comprehension_app {A B} (f : A -> outcome B) (l l' : list A) :
  comprehension f (l ++ l')%list
  = match comprehension f l with
    | Raised e => Raised e
    | Normal ys =>
        match comprehension f l' with
        | Raised e => Raised e
        | Normal ys' => Normal (ys ++ ys')%list
        end
    end.
Proof.
  induction l as [| x l IH]; cbn [app comprehension].
  - now destruct (comprehension f l').
  - destruct (f x) as [y | e]; [| reflexivity]. rewrite IH.
    destruct (comprehension f l) as [ys | e]; [| reflexivity].
    now destruct (comprehension f l').
Qed.

(** X13. Guarding two batches under one specification and joining the
    results is guarding the joined batch; and the joined batch fails as
    soon as one of the two does, with the error of the first. *)
Theorem guard_all_of_appended_batches :
  forall (World : Type)
         (ask_human : string -> args_t -> kwargs_t -> M World bool)
         (fns fns' : list (function World)) (policy : option policy_spec),
    guard_all ask_human (fns ++ fns')%list policy
    = match guard_all ask_human fns policy with
      | Raised e => Raised e
      | Normal gs =>
          match guard_all ask_human fns' policy with
          | Raised e => Raised e
          | Normal gs' => Normal (gs ++ gs')%list
          end
      end.
Proof.
  intros World ask_human fns fns' policy. unfold guard_all.
  apply comprehension_app.
Qed.
